(** * APA102 / SK9822 LED strip driver (Pololu APA102.h)

    A shallow embedding of the driver class [APA102<dataPin, clockPin>]
    and of the wire protocol it speaks, followed by the properties of the
    frame format.

    Integers of the source are [Z] with the conversions to [uint8_t] and
    [uint16_t] written out.  The driver is a sequence of GPIO calls, so the
    functions are commands of a small state monad over a [board]: the
    output latches and directions of the pins, the GPIO calls made so far,
    the caller's memory (where the colour array lives) and the addresses
    read from it.  A command yields [None] when the C program has no
    defined result: a read outside the caller's array, or a loop that is
    out of fuel.

    The default build is modelled: the branch without [APA102_USE_FAST_GPIO],
    which calls [digitalWrite] and [pinMode].  The other branch makes the
    same line operations in the same order through the FastGPIO library and
    is not modelled apart. *)

From stdpp Require Import base numbers functions option list list_numbers gmap.

Local Open Scope Z_scope.

(** ** Machine integers *)

Definition u8 (x : Z) : Z := x `mod` 256.
Definition u16 (x : Z) : Z := x `mod` 65536.

Definition is_u8 (x : Z) : Prop := 0 ≤ x < 256.

(** ** Colours *)

(** [struct rgb_color { uint8_t red, green, blue; }] *)
Record rgb_color := RGB { red : Z; green : Z; blue : Z }.

Definition rgb_ok (c : rgb_color) : Prop :=
  is_u8 (red c) ∧ is_u8 (green c) ∧ is_u8 (blue c).

(** ** The board: pins, call log and caller memory *)

(** Constants of [Arduino.h]. *)
Definition LOW : Z := 0.
Definition HIGH : Z := 1.

Inductive pin_mode := INPUT | OUTPUT.

(** One call into the GPIO layer.  [DigitalWrite pin v] carries the level
    that the call drives: [true] is high. *)
Inductive gpio_call :=
  | DigitalWrite (pin : Z) (level : bool)
  | PinMode (pin : Z) (mode : pin_mode).

Record board := Board {
  port : Z → bool;              (* output latch of every pin *)
  ddr : Z → pin_mode;           (* direction of every pin *)
  log : list gpio_call;         (* GPIO calls, oldest first *)
  heap : gmap Z rgb_color;      (* caller memory, one colour per cell *)
  loads : list Z                (* cells read, oldest first *)
}.

(** ** The command monad *)

Definition io (A : Type) : Type := board → option (A * board).

Definition io_ret {A} (x : A) : io A := λ s, Some (x, s).

Definition io_bind {A B} (m : io A) (k : A → io B) : io B :=
  λ s, match m s with
       | Some (x, s') => k x s'
       | None => None
       end.

Definition io_fail {A} : io A := λ _, None.

Notation "'let*' x := m 'in' k" := (io_bind m (λ x, k))
  (at level 10, x name, m at level 100, k at level 200).
Notation "m >> k" := (io_bind m (λ _, k))
  (at level 65, right associativity).

(** ** GPIO primitives (Arduino core) *)

(** [digitalWrite(pin, val)]: the latch is cleared when [val == LOW] and
    set otherwise. *)
Definition digitalWrite (pin val : Z) : io () := λ s,
  let level := negb (val =? LOW) in
  Some ((), Board (<[pin := level]> (port s)) (ddr s)
                  (log s ++ [DigitalWrite pin level]) (heap s) (loads s)).

Definition pinMode (pin : Z) (mode : pin_mode) : io () := λ s,
  Some ((), Board (port s) (<[pin := mode]> (ddr s))
                  (log s ++ [PinMode pin mode]) (heap s) (loads s)).

(** Reading one element of a caller array: [colors[i]] is [load (colors + i)].
    A cell that holds no colour is outside every array. *)
Definition load (addr : Z) : io rgb_color := λ s,
  match heap s !! addr with
  | Some c => Some (c, Board (port s) (ddr s) (log s) (heap s) (loads s ++ [addr]))
  | None => None
  end.

(** [for (uint16_t i = start; i < bound; i++) body(i);] *)
Fixpoint for_u16 (fuel : nat) (i bound : Z) (body : Z → io ()) : io () :=
  match fuel with
  | O => io_fail
  | S fuel' =>
      if i <? bound
      then body i >> for_u16 fuel' (u16 (i + 1)) bound body
      else io_ret ()
  end.

(** A 16-bit counter takes at most 65536 values before it repeats. *)
Definition u16_fuel : nat := Z.to_nat 65537.

(** ** The driver *)

Section APA102.

(** [template<uint8_t dataPin, uint8_t clockPin> class APA102] *)
Variables dataPin clockPin : Z.

Definition init : io () :=
  digitalWrite dataPin LOW >>
  pinMode dataPin OUTPUT >>
  digitalWrite clockPin LOW >>
  pinMode clockPin OUTPUT.

Definition transfer (b : Z) : io () :=
  digitalWrite dataPin (Z.land (Z.shiftr b 7) 1) >>
  digitalWrite clockPin HIGH >>
  digitalWrite clockPin LOW >>
  digitalWrite dataPin (Z.land (Z.shiftr b 6) 1) >>
  digitalWrite clockPin HIGH >>
  digitalWrite clockPin LOW >>
  digitalWrite dataPin (Z.land (Z.shiftr b 5) 1) >>
  digitalWrite clockPin HIGH >>
  digitalWrite clockPin LOW >>
  digitalWrite dataPin (Z.land (Z.shiftr b 4) 1) >>
  digitalWrite clockPin HIGH >>
  digitalWrite clockPin LOW >>
  digitalWrite dataPin (Z.land (Z.shiftr b 3) 1) >>
  digitalWrite clockPin HIGH >>
  digitalWrite clockPin LOW >>
  digitalWrite dataPin (Z.land (Z.shiftr b 2) 1) >>
  digitalWrite clockPin HIGH >>
  digitalWrite clockPin LOW >>
  digitalWrite dataPin (Z.land (Z.shiftr b 1) 1) >>
  digitalWrite clockPin HIGH >>
  digitalWrite clockPin LOW >>
  digitalWrite dataPin (Z.land (Z.shiftr b 0) 1) >>
  digitalWrite clockPin HIGH >>
  digitalWrite clockPin LOW.

Definition startFrame : io () :=
  init >>
  transfer 0 >>
  transfer 0 >>
  transfer 0 >>
  transfer 0.

Definition endFrame (count : Z) : io () :=
  transfer 0xFF >>
  for_u16 u16_fuel 0 (5 + count / 16) (λ _, transfer 0).

(** [sendColor(uint8_t red, uint8_t green, uint8_t blue, uint8_t brightness)];
    the argument of the first [transfer], [0b11100000 | brightness], is
    an [int] converted to [uint8_t]. *)
Definition sendColor (red green blue brightness : Z) : io () :=
  transfer (u8 (Z.lor 0xE0 brightness)) >>
  transfer blue >>
  transfer green >>
  transfer red.

(** [sendColor(rgb_color color, uint8_t brightness)] *)
Definition sendColor_rgb (color : rgb_color) (brightness : Z) : io () :=
  sendColor (red color) (green color) (blue color) brightness.

(** [write(rgb_color * colors, uint16_t count, uint8_t brightness)];
    [colors] is the address of the first element. *)
Definition write (colors count brightness : Z) : io () :=
  startFrame >>
  for_u16 u16_fuel 0 count
    (λ i, let* c := load (colors + i) in sendColor_rgb c brightness) >>
  endFrame count.

(** ** What the strip sees on the two wires *)

(** The LED chips sample the data line at every rising edge of the clock.
    [wire_bits clk dat calls] replays the GPIO calls from the line levels
    [clk] and [dat] and lists the sampled bits, oldest first. *)
Fixpoint wire_bits (clk dat : bool) (calls : list gpio_call) : list bool :=
  match calls with
  | [] => []
  | DigitalWrite pin level :: calls' =>
      if decide (pin = clockPin) then
        (if level && negb clk then [dat] else []) ++ wire_bits level dat calls'
      else if decide (pin = dataPin) then wire_bits clk level calls'
      else wire_bits clk dat calls'
  | PinMode _ _ :: calls' => wire_bits clk dat calls'
  end.

(** Number of level changes of the clock line, rising and falling. *)
Fixpoint clock_edges (clk : bool) (calls : list gpio_call) : Z :=
  match calls with
  | [] => 0
  | DigitalWrite pin level :: calls' =>
      if decide (pin = clockPin) then
        (if xorb level clk then 1 else 0) + clock_edges level calls'
      else clock_edges clk calls'
  | PinMode _ _ :: calls' => clock_edges clk calls'
  end.

(** One bit on the wire: data first, then a clock pulse. *)
Definition bit_pulse (level : bool) : list gpio_call :=
  [DigitalWrite dataPin level; DigitalWrite clockPin true;
   DigitalWrite clockPin false].

(** One byte on the wire, most significant bit first. *)
Definition byte_pulses (b : Z) : list gpio_call :=
  flat_map (λ k, bit_pulse (Z.testbit b k)) [7; 6; 5; 4; 3; 2; 1; 0].

(** The GPIO calls of [init]. *)
Definition init_calls : list gpio_call :=
  [DigitalWrite dataPin false; PinMode dataPin OUTPUT;
   DigitalWrite clockPin false; PinMode clockPin OUTPUT].

End APA102.

(** Bits are grouped into bytes, most significant bit first; an incomplete
    last group is not a byte. *)
Definition byte_of_bits (b7 b6 b5 b4 b3 b2 b1 b0 : bool) : Z :=
  128 * Z.b2z b7 + 64 * Z.b2z b6 + 32 * Z.b2z b5 + 16 * Z.b2z b4 +
  8 * Z.b2z b3 + 4 * Z.b2z b2 + 2 * Z.b2z b1 + Z.b2z b0.

Fixpoint bytes_of_bits (bits : list bool) : list Z :=
  match bits with
  | b7 :: b6 :: b5 :: b4 :: b3 :: b2 :: b1 :: b0 :: bits' =>
      byte_of_bits b7 b6 b5 b4 b3 b2 b1 b0 :: bytes_of_bits bits'
  | _ => []
  end.

(** The bits of a byte in the order of the wire. *)
Definition bits_of_byte (b : Z) : list bool :=
  Z.testbit b <$> [7; 6; 5; 4; 3; 2; 1; 0].

(** The GPIO calls made between the states [s] and [s']. *)
Definition emitted (s s' : board) : list gpio_call :=
  drop (length (log s)) (log s').

(** The byte stream that a strip on [dataPin] and [clockPin] receives between
    [s] and [s']. *)
Definition stream (dataPin clockPin : Z) (s s' : board) : list Z :=
  bytes_of_bits
    (wire_bits dataPin clockPin (port s clockPin) (port s dataPin) (emitted s s')).

(** [array_at h addr n] is the array of [n] colours that starts at cell
    [addr] of the memory [h], when all its cells exist. *)
Fixpoint array_at (h : gmap Z rgb_color) (addr : Z) (n : nat)
  : option (list rgb_color) :=
  match n with
  | O => Some []
  | S n' =>
      match h !! addr, array_at h (addr + 1) n' with
      | Some c, Some cs => Some (c :: cs)
      | _, _ => None
      end
  end.

(** ** The frame layout of the wire-protocol table *)

Definition spec_start_frame : list Z := [0x00; 0x00; 0x00; 0x00].

Definition spec_led_word (brightness : Z) (c : rgb_color) : list Z :=
  [Z.lor (Z.shiftl 0x7 5) brightness; blue c; green c; red c].

Definition spec_end_frame (count : Z) : list Z :=
  0xFF :: replicate (Z.to_nat (5 + count / 16)) 0x00.

Definition spec_frame (brightness : Z) (cs : list rgb_color) (count : Z) : list Z :=
  spec_start_frame ++ flat_map (spec_led_word brightness) cs ++ spec_end_frame count.

(** ** The bytes that the driver passes to [transfer] *)

Definition sent_word (brightness : Z) (c : rgb_color) : list Z :=
  [u8 (Z.lor 0xE0 brightness); blue c; green c; red c].

Definition sent_end (count : Z) : list Z :=
  0xFF :: replicate (Z.to_nat (5 + count / 16)) 0.

Definition sent_frame (brightness : Z) (cs : list rgb_color) (count : Z) : list Z :=
  [0; 0; 0; 0] ++ flat_map (sent_word brightness) cs ++ sent_end count.

(** The [i]-th 4-byte LED word of a stream, and the first [n] of them. *)
Definition word_at (bytes : list Z) (i : nat) : list Z :=
  take 4 (drop (4 + 4 * i) bytes).

Definition led_words (bytes : list Z) (n : nat) : list (list Z) :=
  word_at bytes <$> seq 0 n.

#[global] Instance rgb_color_inhabited : Inhabited rgb_color := populate (RGB 0 0 0).

(** [permute p l] lists the elements of [l] in the order [p]. *)
Definition permute {A} `{Inhabited A} (p : list nat) (l : list A) : list A :=
  (λ j, l !!! j) <$> p.

(** ** Boards for examples *)

(** Two arrays of two colours, at cells 100 and 200, and every line at
    [level]. *)
Definition demo_board (level : bool) : board :=
  Board (λ _, level) (λ _, INPUT) []
        (list_to_map [(100, RGB 1 2 3); (101, RGB 255 0 7);
                      (200, RGB 255 0 7); (201, RGB 1 2 3)]) [].

(** The bytes that a strip on [dataPin] and [clockPin] receives when [c]
    runs from [s]. *)
Definition received (dataPin clockPin : Z) (c : io ()) (s : board)
  : option (list Z) :=
  match c s with
  | Some (_, s') => Some (stream dataPin clockPin s s')
  | None => None
  end.

(** Range conditions on concrete bytes and colours. *)
Ltac u8_solve :=
  repeat (apply List.Forall_cons || apply List.Forall_nil);
  unfold rgb_ok, is_u8; cbn; lia.

(** ** Effects of a command *)

(** The output latches after one GPIO call. *)
Definition drive (latch : Z → bool) (c : gpio_call) : Z → bool :=
  match c with
  | DigitalWrite pin level => <[pin := level]> latch
  | PinMode _ _ => latch
  end.

(** Between [s] and [s'] the GPIO calls [calls] were made and the cells
    [reads] were read, in this order, memory was not written, and the
    latches are what the calls made them. *)
Definition effect (calls : list gpio_call) (reads : list Z) (s s' : board) : Prop :=
  log s' = log s ++ calls ∧ heap s' = heap s ∧ loads s' = loads s ++ reads ∧
  port s' = fold_left drive calls (port s).

(** In memory [h] the command [c] returns, with the given effect. *)
Definition does (h : gmap Z rgb_color) (c : io ())
    (calls : list gpio_call) (reads : list Z) : Prop :=
  ∀ s, heap s = h → ∃ s', c s = Some ((), s') ∧ effect calls reads s s'.

(** ** The low-level interface *)

Section LowLevel.

Variables dataPin clockPin : Z.

(** The calls that the documentation of [startFrame] describes: first
    [startFrame()], then [sendColor()] some number of times, each LED with
    its own brightness, then [endFrame()]. *)
Fixpoint sendColors (leds : list (rgb_color * Z)) : io () :=
  match leds with
  | [] => io_ret ()
  | (color, brightness) :: leds' =>
      sendColor_rgb dataPin clockPin color brightness >> sendColors leds'
  end.

Definition low_level_frame (leds : list (rgb_color * Z)) (count : Z) : io () :=
  startFrame dataPin clockPin >>
  sendColors leds >>
  endFrame dataPin clockPin count.

End LowLevel.

(** An LED of the low-level interface: a colour and a brightness. *)
Definition led_ok (led : rgb_color * Z) : Prop := rgb_ok led.1 ∧ is_u8 led.2.

Definition sent_led (led : rgb_color * Z) : list Z := sent_word led.2 led.1.

Definition spec_led (led : rgb_color * Z) : list Z := spec_led_word led.2 led.1.

(** A command that leaves the pin directions as they are. *)
Definition keeps_ddr {A} (c : io A) : Prop :=
  ∀ s x s', c s = Some (x, s') → ddr s' = ddr s.

(** ** The Brightness example (examples/Brightness/Brightness.ino) *)

Module Brightness.

Definition dataPin : Z := 11.
Definition clockPin : Z := 12.

Definition ledCount : Z := 72.

Definition maxValue : Z := 255 * 31.

Definition minValue : Z := 1.

(** An 8-bit counter takes at most 256 values before it repeats. *)
Definition u8_fuel : nat := 257.

Section Int.

(** The largest [int] of the board: 32767 on the 8-bit boards, 2147483647
    on the 32-bit ones. *)
Variable INT_MAX : Z.

(** [while (brightness * 0xFF < value) { brightness++; }]
    The product is computed in [int], where an overflow has no defined
    result; the comparison is between non-negative numbers whatever the
    conversions are. *)
Fixpoint sendWhite_loop (fuel : nat) (brightness value : Z) : io Z :=
  match fuel with
  | O => io_fail
  | S fuel' =>
      if INT_MAX <? brightness * 0xFF then io_fail
      else if brightness * 0xFF <? value
           then sendWhite_loop fuel' (u8 (brightness + 1)) value
           else io_ret brightness
  end.

(** [void sendWhite(uint16_t value)].  The sum [value + brightness / 2] is
    unsigned 16-bit arithmetic where [int] cannot hold every [uint16_t], and
    [int] arithmetic elsewhere; a division by zero has no defined result. *)
Definition sendWhite (value : Z) : io () :=
  let* brightness := sendWhite_loop u8_fuel 1 value in
  let sum := if INT_MAX <? 65535
             then u16 (value + brightness / 2)
             else value + brightness / 2 in
  if brightness =? 0 then io_fail
  else
    let brightness2 := u8 (sum / brightness) in
    sendColor dataPin clockPin brightness2 brightness2 brightness2 brightness.

End Int.

End Brightness.

(** * Properties *)

(** ** Machine integers and bits *)

Lemma u16_succ i bound : 0 ≤ i < bound → bound ≤ 65535 → u16 (i + 1) = i + 1.
Proof. unfold u16. intros ??. rewrite Z.mod_small; lia. Qed.

(** The level that [digitalWrite(pin, b >> k & 1)] drives is bit [k] of [b]. *)
Lemma level_testbit b k :
  0 ≤ k → negb (Z.land (Z.shiftr b k) 1 =? LOW) = Z.testbit b k.
Proof.
  intros Hk. unfold LOW.
  change 1 with (Z.ones 1). rewrite Z.land_ones by lia.
  rewrite Z.shiftr_div_pow2 by lia. change (2 ^ 1) with 2.
  rewrite <- Z.testbit_spec' by lia.
  by destruct (Z.testbit b k).
Qed.

(** Eight bits, most significant first, give the byte back. *)
Lemma byte_of_bits_testbit b :
  is_u8 b →
  byte_of_bits (Z.testbit b 7) (Z.testbit b 6) (Z.testbit b 5) (Z.testbit b 4)
               (Z.testbit b 3) (Z.testbit b 2) (Z.testbit b 1) (Z.testbit b 0) = b.
Proof.
  intros Hb.
  pose (ok := λ x, byte_of_bits (Z.testbit x 7) (Z.testbit x 6)
                (Z.testbit x 5) (Z.testbit x 4) (Z.testbit x 3)
                (Z.testbit x 2) (Z.testbit x 1) (Z.testbit x 0) =? x).
  assert (Hall : forallb ok (seqZ 0 256) = true) by (vm_compute; reflexivity).
  rewrite forallb_forall in Hall. specialize (Hall b).
  apply Z.eqb_eq, Hall, list_elem_of_In, elem_of_seqZ.
  unfold is_u8 in Hb. lia.
Qed.

Lemma bytes_of_bits_app b bits :
  is_u8 b → bytes_of_bits (bits_of_byte b ++ bits) = b :: bytes_of_bits bits.
Proof. intros Hb. rewrite <- (byte_of_bits_testbit b Hb) at 2. reflexivity. Qed.

Lemma bytes_of_bits_bytes bs :
  Forall is_u8 bs → bytes_of_bits (flat_map bits_of_byte bs) = bs.
Proof.
  induction 1 as [|b bs Hb _ IH]; [done|].
  change (flat_map bits_of_byte (b :: bs))
    with (bits_of_byte b ++ flat_map bits_of_byte bs).
  by rewrite bytes_of_bits_app, IH.
Qed.

(** ** Composing effects *)

Lemma does_eq h c calls reads calls' reads' :
  does h c calls reads → calls = calls' → reads = reads' → does h c calls' reads'.
Proof. by intros ? <- <-. Qed.

Lemma does_ret h : does h (io_ret ()) [] [].
Proof.
  intros s _. exists s. split; [done|].
  unfold effect. by rewrite !app_nil_r.
Qed.

Lemma effect_seq calls1 reads1 calls2 reads2 s s1 s2 :
  effect calls1 reads1 s s1 → effect calls2 reads2 s1 s2 →
  effect (calls1 ++ calls2) (reads1 ++ reads2) s s2.
Proof.
  intros (Hlog1 & Hheap1 & Hloads1 & Hport1) (Hlog2 & Hheap2 & Hloads2 & Hport2).
  unfold effect.
  rewrite Hlog2, Hlog1, Hheap2, Hheap1, Hloads2, Hloads1, Hport2, Hport1.
  by rewrite !app_assoc, fold_left_app.
Qed.

Lemma does_seq h c1 c2 calls1 reads1 calls2 reads2 :
  does h c1 calls1 reads1 → does h c2 calls2 reads2 →
  does h (c1 >> c2) (calls1 ++ calls2) (reads1 ++ reads2).
Proof.
  intros H1 H2 s Hs.
  destruct (H1 s Hs) as (s1 & Hrun1 & Heff1).
  destruct (H2 s1) as (s2 & Hrun2 & Heff2).
  { destruct Heff1 as (_ & Hheap1 & _). congruence. }
  exists s2. split.
  - unfold io_bind. by rewrite Hrun1.
  - by apply (effect_seq _ _ _ _ s s1 s2).
Qed.

Lemma does_digitalWrite h pin val :
  does h (digitalWrite pin val) [DigitalWrite pin (negb (val =? LOW))] [].
Proof.
  intros s _. eexists. split; [reflexivity|].
  unfold effect. simpl. by rewrite app_nil_r.
Qed.

Lemma does_pinMode h pin mode : does h (pinMode pin mode) [PinMode pin mode] [].
Proof.
  intros s _. eexists. split; [reflexivity|].
  unfold effect. simpl. by rewrite app_nil_r.
Qed.

Lemma does_load h addr c (k : rgb_color → io ()) calls reads :
  h !! addr = Some c → does h (k c) calls reads →
  does h (let* x := load addr in k x) calls (addr :: reads).
Proof.
  intros Hc Hk s Hs. subst h.
  destruct (Hk (Board (port s) (ddr s) (log s) (heap s) (loads s ++ [addr])))
    as (s' & Hrun & Hlog & Hheap & Hloads & Hport); [done|].
  exists s'. split.
  - unfold io_bind, load. by rewrite Hc.
  - unfold effect. rewrite Hlog, Hheap, Hloads, Hport. simpl.
    by rewrite <- app_assoc.
Qed.

(** The loop runs its body for [i], [i + 1], ..., [bound - 1] and returns:
    the counter never wraps and the fuel is enough. *)
Lemma does_for h body (calls : Z → list gpio_call) (reads : Z → list Z) bound :
  bound ≤ 65535 →
  (∀ i, 0 ≤ i < bound → does h (body i) (calls i) (reads i)) →
  ∀ fuel i, 0 ≤ i → (Z.to_nat (bound - i) < fuel)%nat →
  does h (for_u16 fuel i bound body)
       (flat_map calls (seqZ i (bound - i))) (flat_map reads (seqZ i (bound - i))).
Proof.
  intros Hbound Hbody fuel.
  induction fuel as [|fuel IH]; intros i Hi Hfuel; [lia|].
  simpl. destruct (Z.ltb_spec i bound) as [Hlt|Hge].
  - rewrite (seqZ_cons i) by lia. simpl.
    rewrite (u16_succ i bound) by lia.
    apply does_seq; [apply Hbody; lia|].
    replace (Z.succ i) with (i + 1) by lia.
    replace (Z.pred (bound - i)) with (bound - (i + 1)) by lia.
    apply IH; lia.
  - rewrite seqZ_nil by lia. apply does_ret.
Qed.

Section Driver.

Variables dataPin clockPin : Z.

Lemma does_init h : does h (init dataPin clockPin) (init_calls dataPin clockPin) [].
Proof.
  eapply does_eq.
  - unfold init.
    do 3 (apply does_seq; [first [apply does_digitalWrite | apply does_pinMode]|]).
    apply does_pinMode.
  - reflexivity.
  - reflexivity.
Qed.

Lemma does_transfer h b :
  does h (transfer dataPin clockPin b) (byte_pulses dataPin clockPin b) [].
Proof.
  eapply does_eq.
  - unfold transfer.
    do 23 (apply does_seq; [apply does_digitalWrite|]).
    apply does_digitalWrite.
  - unfold byte_pulses, bit_pulse. simpl flat_map. simpl app.
    rewrite !level_testbit by lia. reflexivity.
  - reflexivity.
Qed.

(** [sendColor] is four [transfer] calls, one per byte. *)
Lemma does_sendColor h r g b brightness :
  does h (sendColor dataPin clockPin r g b brightness)
       (flat_map (byte_pulses dataPin clockPin)
                 [u8 (Z.lor 0xE0 brightness); b; g; r]) [].
Proof.
  eapply does_eq.
  - unfold sendColor.
    do 3 (apply does_seq; [apply does_transfer|]). apply does_transfer.
  - cbn [flat_map]. by rewrite app_nil_r.
  - reflexivity.
Qed.

Lemma does_startFrame h :
  does h (startFrame dataPin clockPin)
       (init_calls dataPin clockPin ++
        flat_map (byte_pulses dataPin clockPin) [0; 0; 0; 0]) [].
Proof.
  eapply does_eq.
  - unfold startFrame.
    apply does_seq; [apply does_init|].
    do 3 (apply does_seq; [apply does_transfer|]). apply does_transfer.
  - cbn [flat_map]. by rewrite app_nil_r.
  - reflexivity.
Qed.

End Driver.

(** ** Lists *)

Lemma flat_map_replicate {A B} (f : A → list B) n x :
  flat_map f (replicate n x) = concat (replicate n (f x)).
Proof. induction n as [|n IH]; [done|]. simpl. by rewrite IH. Qed.

Lemma flat_map_const {A B} (l : list A) (x : list B) :
  flat_map (λ _, x) l = concat (replicate (length l) x).
Proof. induction l as [|a l IH]; [done|]. simpl. by rewrite IH. Qed.

Lemma flat_map_fmap {A B C} (f : B → list C) (g : A → B) l :
  flat_map f (g <$> l) = flat_map (λ x, f (g x)) l.
Proof. induction l as [|a l IH]; [done|]. csimpl. by rewrite IH. Qed.

Lemma flat_map_singleton {A B} (f : A → B) l : flat_map (λ x, [f x]) l = f <$> l.
Proof. induction l as [|a l IH]; [done|]. csimpl. by rewrite IH. Qed.

Lemma flat_map_flat_map {A B C} (f : B → list C) (g : A → list B) l :
  flat_map f (flat_map g l) = flat_map (λ x, flat_map f (g x)) l.
Proof.
  induction l as [|a l IH]; [done|]. simpl. by rewrite flat_map_app, IH.
Qed.

Lemma fmap_lookup_total_seq {A} `{Inhabited A} (l : list A) :
  (λ j, l !!! j) <$> seq 0 (length l) = l.
Proof.
  apply list_eq. intros k. rewrite list_lookup_fmap.
  destruct (decide (k < length l)%nat) as [Hk|Hk].
  - rewrite lookup_seq_lt by done. simpl.
    destruct (lookup_lt_is_Some_2 l k Hk) as [x Hx].
    by rewrite (list_lookup_total_correct _ _ _ Hx).
  - rewrite lookup_seq_ge by lia. simpl. symmetry. apply lookup_ge_None. lia.
Qed.

Lemma fmap_lookup_total_seqZ {A} `{Inhabited A} (l : list A) :
  (λ i, l !!! Z.to_nat i) <$> seqZ 0 (Z.of_nat (length l)) = l.
Proof.
  unfold seqZ. rewrite <- list_fmap_compose, Nat2Z.id.
  etrans; [|apply (fmap_lookup_total_seq l)].
  apply list_fmap_ext. intros _ j _. simpl. f_equal. lia.
Qed.

(** ** Arrays in caller memory *)

Lemma array_at_length h addr n cs : array_at h addr n = Some cs → length cs = n.
Proof.
  revert addr cs. induction n as [|n IH]; intros addr cs; simpl.
  - by intros [= <-].
  - destruct (h !! addr); [|done].
    destruct (array_at h (addr + 1) n) eqn:Hrest; [|done].
    intros [= <-]. simpl. by rewrite (IH _ _ Hrest).
Qed.

Lemma array_at_lookup h addr n cs (i : nat) c :
  array_at h addr n = Some cs → cs !! i = Some c → h !! (addr + Z.of_nat i) = Some c.
Proof.
  revert addr cs i. induction n as [|n IH]; intros addr cs i; simpl.
  - by intros [= <-].
  - destruct (h !! addr) eqn:Hhead; [|done].
    destruct (array_at h (addr + 1) n) eqn:Hrest; [|done].
    intros [= <-]. destruct i as [|i]; simpl.
    + intros [= <-]. by rewrite Z.add_0_r.
    + intros Hi. rewrite <- (IH _ _ _ Hrest Hi). f_equal. lia.
Qed.

Lemma array_at_cell h addr count cs i :
  array_at h addr (Z.to_nat count) = Some cs → 0 ≤ i < count →
  h !! (addr + i) = Some (cs !!! Z.to_nat i).
Proof.
  intros Harr Hi. pose proof (array_at_length _ _ _ _ Harr) as Hlen.
  destruct (lookup_lt_is_Some_2 cs (Z.to_nat i)) as [c Hc]; [lia|].
  rewrite (list_lookup_total_correct _ _ _ Hc).
  rewrite <- (array_at_lookup _ _ _ _ _ _ Harr Hc). f_equal. lia.
Qed.

(** ** Effects of the frame functions *)

Lemma end_bound count : 0 ≤ count ≤ 65535 → 5 ≤ 5 + count / 16 ≤ 65535.
Proof.
  intros Hc.
  assert (0 ≤ count / 16) by (apply Z.div_pos; lia).
  assert (count / 16 < 4096) by (apply Z.div_lt_upper_bound; lia).
  lia.
Qed.

Section Frames.

Variables dataPin clockPin : Z.

Local Abbreviation pulses := (flat_map (byte_pulses dataPin clockPin)).

Lemma does_endFrame h count :
  0 ≤ count ≤ 65535 →
  does h (endFrame dataPin clockPin count) (pulses (sent_end count)) [].
Proof.
  intros Hc. pose proof (end_bound count Hc) as Hb.
  eapply does_eq.
  - unfold endFrame. apply does_seq; [apply does_transfer|].
    apply (does_for h _ (λ _, byte_pulses dataPin clockPin 0) (λ _, [])).
    + lia.
    + intros i _. apply does_transfer.
    + lia.
    + unfold u16_fuel. lia.
  - unfold sent_end.
    change (pulses (0xFF :: ?l)) with (byte_pulses dataPin clockPin 0xFF ++ pulses l).
    f_equal. rewrite flat_map_const, flat_map_replicate, length_seqZ.
    by rewrite Z.sub_0_r.
  - rewrite flat_map_const. generalize (length (seqZ 0 (5 + count / 16 - 0))).
    intros n. induction n as [|n IH]; [done|]. by simpl.
Qed.

Lemma does_write h colors count brightness cs :
  array_at h colors (Z.to_nat count) = Some cs →
  0 ≤ count ≤ 65535 →
  does h (write dataPin clockPin colors count brightness)
       (init_calls dataPin clockPin ++ pulses (sent_frame brightness cs count))
       (seqZ colors count).
Proof.
  intros Harr Hc. pose proof (array_at_length _ _ _ _ Harr) as Hlen.
  eapply does_eq.
  - unfold write.
    apply does_seq; [apply does_startFrame|].
    apply does_seq; [|apply does_endFrame; lia].
    apply (does_for h _
             (λ i, pulses (sent_word brightness (cs !!! Z.to_nat i)))
             (λ i, [colors + i])).
    + lia.
    + intros i Hi.
      apply (does_load h _ (cs !!! Z.to_nat i)); [by apply (array_at_cell _ _ count)|].
      exact (does_sendColor dataPin clockPin h _ _ _ brightness).
    + lia.
    + unfold u16_fuel. lia.
  - unfold sent_frame. rewrite !flat_map_app, <- app_assoc. f_equal. f_equal.
    f_equal. rewrite Z.sub_0_r.
    rewrite flat_map_flat_map.
    rewrite <- (flat_map_fmap (λ c, pulses (sent_word brightness c))
                  (λ i, cs !!! Z.to_nat i)).
    replace count with (Z.of_nat (length cs)) by lia.
    by rewrite fmap_lookup_total_seqZ.
  - simpl. rewrite app_nil_r, Z.sub_0_r, flat_map_singleton.
    rewrite fmap_add_seqZ. by rewrite Z.add_0_r.
Qed.

End Frames.

(** ** Decoding the wire *)

Lemma emitted_app s s' calls : log s' = log s ++ calls → emitted s s' = calls.
Proof. intros Hlog. unfold emitted. by rewrite Hlog, drop_app_length. Qed.

Section Wire.

Variables dataPin clockPin : Z.
Hypothesis pins_distinct : dataPin ≠ clockPin.

Local Abbreviation pulses := (flat_map (byte_pulses dataPin clockPin)).
Local Abbreviation bits := (wire_bits dataPin clockPin).
Local Abbreviation edges := (clock_edges clockPin).

Lemma wire_bits_clock clk dat level calls :
  bits clk dat (DigitalWrite clockPin level :: calls) =
  (if level && negb clk then [dat] else []) ++ bits level dat calls.
Proof. simpl. by rewrite decide_True. Qed.

Lemma wire_bits_data clk dat level calls :
  bits clk dat (DigitalWrite dataPin level :: calls) = bits clk level calls.
Proof. simpl. rewrite decide_False by done. by rewrite decide_True. Qed.

(** With the clock low, a bit pulse delivers its bit and leaves the clock
    low. *)
Lemma wire_bits_bit_pulse dat level calls :
  bits false dat (bit_pulse dataPin clockPin level ++ calls) =
  level :: bits false level calls.
Proof.
  unfold bit_pulse. simpl app.
  by rewrite wire_bits_data, !wire_bits_clock.
Qed.

Lemma wire_bits_byte dat b calls :
  bits false dat (byte_pulses dataPin clockPin b ++ calls) =
  bits_of_byte b ++ bits false (Z.testbit b 0) calls.
Proof.
  unfold byte_pulses. cbn [flat_map]. rewrite app_nil_r, <- !app_assoc.
  by rewrite !wire_bits_bit_pulse.
Qed.

Lemma wire_bits_bytes dat bs :
  bits false dat (pulses bs) = flat_map bits_of_byte bs.
Proof.
  revert dat. induction bs as [|b bs IH]; intros dat; [done|].
  cbn [flat_map]. by rewrite wire_bits_byte, IH.
Qed.

(** [init] makes no rising edge, whatever the lines were. *)
Lemma wire_bits_init clk dat calls :
  bits clk dat (init_calls dataPin clockPin ++ calls) = bits false false calls.
Proof.
  unfold init_calls. simpl app. rewrite wire_bits_data. simpl.
  by rewrite decide_True.
Qed.

Lemma stream_bytes s s' bs :
  port s clockPin = false → Forall is_u8 bs →
  log s' = log s ++ pulses bs → stream dataPin clockPin s s' = bs.
Proof.
  intros Hclk Hbs Hlog. unfold stream.
  rewrite (emitted_app _ _ _ Hlog), Hclk, wire_bits_bytes.
  by apply bytes_of_bits_bytes.
Qed.

Lemma stream_frame s s' bs :
  Forall is_u8 bs →
  log s' = log s ++ init_calls dataPin clockPin ++ pulses bs →
  stream dataPin clockPin s s' = bs.
Proof.
  intros Hbs Hlog. unfold stream.
  rewrite (emitted_app _ _ _ Hlog), wire_bits_init, wire_bits_bytes.
  by apply bytes_of_bits_bytes.
Qed.

(** *** Clock edges *)

Lemma clock_edges_bit_pulse clk level calls :
  edges clk (bit_pulse dataPin clockPin level ++ calls) =
  (if clk then 1 else 2) + edges false calls.
Proof.
  unfold bit_pulse. simpl. rewrite decide_False by done.
  rewrite !decide_True by done. destruct clk; simpl; lia.
Qed.

Lemma clock_edges_byte clk b calls :
  edges clk (byte_pulses dataPin clockPin b ++ calls) =
  (if clk then 15 else 16) + edges false calls.
Proof.
  unfold byte_pulses. cbn [flat_map]. rewrite app_nil_r, <- !app_assoc.
  rewrite !clock_edges_bit_pulse. destruct clk; lia.
Qed.

Lemma clock_edges_bytes bs :
  edges false (pulses bs) = 16 * Z.of_nat (length bs).
Proof.
  induction bs as [|b bs IH]; [done|].
  cbn [flat_map]. rewrite clock_edges_byte, IH. simpl length. lia.
Qed.

End Wire.

(** ** The frame that [write] sends *)

(** A property of all 256 bytes can be checked by running through them. *)
Lemma u8_forall (P : Z → bool) :
  forallb P (seqZ 0 256) = true → ∀ x, is_u8 x → P x = true.
Proof.
  intros Hall x Hx. rewrite forallb_forall in Hall.
  apply Hall, list_elem_of_In, elem_of_seqZ. unfold is_u8 in Hx. lia.
Qed.

Lemma u8_range x : is_u8 (u8 x).
Proof. unfold is_u8, u8. apply Z.mod_pos_bound. lia. Qed.

(** The header byte needs no truncation, and only the low five bits of the
    brightness reach it. *)
Lemma header_byte brightness :
  is_u8 brightness →
  u8 (Z.lor 0xE0 brightness) = Z.lor (Z.shiftl 0x7 5) brightness ∧
  Z.lor 0xE0 brightness = Z.lor 0xE0 (Z.land brightness 0x1F) ∧
  Z.lor 0xE0 brightness = 0xE0 + brightness `mod` 32.
Proof.
  intros Hb.
  pose (ok := λ x, (u8 (Z.lor 0xE0 x) =? Z.lor (Z.shiftl 0x7 5) x) &&
                   (Z.lor 0xE0 x =? Z.lor 0xE0 (Z.land x 0x1F)) &&
                   (Z.lor 0xE0 x =? 0xE0 + x `mod` 32)).
  assert (Hok : ok brightness = true).
  { apply u8_forall; [|done]. vm_compute. reflexivity. }
  unfold ok in Hok. rewrite !andb_true_iff, !Z.eqb_eq in Hok.
  by destruct Hok as [[? ?] ?].
Qed.

Lemma sent_word_spec brightness c :
  is_u8 brightness → sent_word brightness c = spec_led_word brightness c.
Proof.
  intros Hb. unfold sent_word, spec_led_word.
  by destruct (header_byte brightness Hb) as [-> _].
Qed.

Lemma sent_frame_spec brightness cs count :
  is_u8 brightness → sent_frame brightness cs count = spec_frame brightness cs count.
Proof.
  intros Hb. unfold sent_frame, spec_frame. f_equal. f_equal.
  induction cs as [|c cs IH]; [done|].
  cbn [flat_map]. by rewrite IH, sent_word_spec.
Qed.

Lemma sent_end_u8 count : Forall is_u8 (sent_end count).
Proof.
  unfold sent_end. constructor; [unfold is_u8; lia|].
  apply Forall_replicate. unfold is_u8. lia.
Qed.

Lemma sent_frame_u8 brightness cs count :
  Forall rgb_ok cs → Forall is_u8 (sent_frame brightness cs count).
Proof.
  intros Hcs. unfold sent_frame. apply Forall_app. split.
  { repeat constructor; unfold is_u8; lia. }
  apply Forall_app. split; [|apply sent_end_u8].
  induction Hcs as [|c cs (Hr & Hg & Hb) _ IH]; [constructor|].
  cbn [flat_map]. apply Forall_app. split; [|exact IH].
  unfold sent_word. repeat (constructor; [done || apply u8_range|]). constructor.
Qed.

Lemma length_words brightness cs :
  length (flat_map (spec_led_word brightness) cs) = (4 * length cs)%nat.
Proof. induction cs as [|c cs IH]; [done|]. simpl. rewrite IH. lia. Qed.

Lemma length_spec_end_frame count :
  0 ≤ count → Z.of_nat (length (spec_end_frame count)) = 6 + count / 16.
Proof.
  intros Hc. unfold spec_end_frame. simpl length. rewrite length_replicate.
  assert (0 ≤ count / 16) by (apply Z.div_pos; lia). lia.
Qed.

Lemma length_spec_frame brightness cs count :
  0 ≤ count →
  Z.of_nat (length (spec_frame brightness cs count)) =
  4 + 4 * Z.of_nat (length cs) + 6 + count / 16.
Proof.
  intros Hc. unfold spec_frame. rewrite !length_app, length_words.
  pose proof (length_spec_end_frame count Hc). simpl length in *. lia.
Qed.

(** The words of a frame are the words of its colours. *)
Lemma word_at_words brightness cs rest i c :
  cs !! i = Some c →
  take 4 (drop (4 * i) (flat_map (spec_led_word brightness) cs ++ rest)) =
  spec_led_word brightness c.
Proof.
  revert i. induction cs as [|c' cs IH]; intros i; [done|].
  destruct i as [|i]; simpl.
  - by intros [= <-].
  - intros Hi. rewrite <- (IH i Hi). f_equal.
    replace (i + S (i + S (i + S (i + 0))))%nat with (3 + 4 * i)%nat by lia.
    done.
Qed.

Lemma drop_start_frame brightness cs count n :
  drop (4 + n) (spec_frame brightness cs count) =
  drop n (flat_map (spec_led_word brightness) cs ++ spec_end_frame count).
Proof. reflexivity. Qed.

Lemma word_at_frame brightness cs count i c :
  cs !! i = Some c →
  word_at (spec_frame brightness cs count) i = spec_led_word brightness c.
Proof.
  intros Hi. unfold word_at. rewrite drop_start_frame. by apply word_at_words.
Qed.

Lemma led_words_frame brightness cs count :
  led_words (spec_frame brightness cs count) (length cs) =
  spec_led_word brightness <$> cs.
Proof.
  unfold led_words. rewrite <- (fmap_lookup_total_seq cs) at 3.
  rewrite <- list_fmap_compose. apply list_fmap_ext. intros i j Hj. simpl.
  apply lookup_seq in Hj as [-> Hj]. simpl.
  destruct (lookup_lt_is_Some_2 cs i Hj) as [c Hc].
  rewrite (list_lookup_total_correct _ _ _ Hc). by apply word_at_frame.
Qed.

Lemma drop_words_frame brightness cs count :
  drop (4 + 4 * length cs) (spec_frame brightness cs count) = spec_end_frame count.
Proof.
  rewrite drop_start_frame, <- (length_words brightness).
  by rewrite drop_app_length.
Qed.

(** ** Reordering the colours *)

Lemma rgb_ok_lookup_total cs j : Forall rgb_ok cs → rgb_ok (cs !!! j).
Proof.
  intros Hcs. rewrite list_lookup_total_alt.
  destruct (cs !! j) as [c|] eqn:Hj; simpl.
  - by apply (Forall_lookup_1 _ _ _ _ Hcs Hj).
  - unfold rgb_ok, is_u8. cbn. lia.
Qed.

Lemma permute_fmap {A B} `{Inhabited A} `{Inhabited B} (f : A → B) p (l : list A) :
  p ≡ₚ seq 0 (length l) → f <$> permute p l = permute p (f <$> l).
Proof.
  intros Hp. unfold permute. rewrite <- list_fmap_compose.
  apply list_fmap_ext. intros i j Hj. simpl.
  apply list_elem_of_lookup_2 in Hj. rewrite Hp in Hj.
  apply elem_of_seq in Hj. symmetry. apply list_lookup_total_fmap. lia.
Qed.

(** A frame is its start frame, its LED words and its end frame. *)
Lemma spec_frame_concat brightness cs count :
  spec_frame brightness cs count =
  [0x00; 0x00; 0x00; 0x00] ++ concat (spec_led_word brightness <$> cs)
    ++ spec_end_frame count.
Proof.
  unfold spec_frame, spec_start_frame. f_equal. f_equal.
  induction cs as [|c cs IH]; [done|]. csimpl. by rewrite <- IH.
Qed.

(** ** Runs of the driver *)

Lemma word_at_lookup (bytes : list Z) i w (k : nat) :
  word_at bytes i = w → (k < 4)%nat → bytes !! (4 + 4 * i + k)%nat = w !! k.
Proof.
  intros <- Hk. unfold word_at.
  by rewrite lookup_take_lt, lookup_drop by done.
Qed.

Section Runs.

Variables dataPin clockPin : Z.
Hypothesis pins_distinct : dataPin ≠ clockPin.

Local Abbreviation pulses := (flat_map (byte_pulses dataPin clockPin)).

(** A whole [write]: it returns, the strip receives the frame of the
    protocol table, memory is unchanged and the array was read in order. *)
Lemma write_run colors count brightness cs s :
  array_at (heap s) colors (Z.to_nat count) = Some cs →
  Forall rgb_ok cs → 0 ≤ count ≤ 65535 → is_u8 brightness →
  ∃ s', write dataPin clockPin colors count brightness s = Some ((), s') ∧
        emitted s s' =
          init_calls dataPin clockPin ++ pulses (spec_frame brightness cs count) ∧
        stream dataPin clockPin s s' = spec_frame brightness cs count ∧
        heap s' = heap s ∧
        loads s' = loads s ++ seqZ colors count.
Proof.
  intros Harr Hcs Hc Hb.
  destruct (does_write dataPin clockPin _ _ _ brightness _ Harr Hc s eq_refl)
    as (s' & Hrun & Hlog & Hheap & Hloads & _).
  exists s'. rewrite <- (sent_frame_spec brightness cs count Hb).
  split_and!.
  - exact Hrun.
  - apply emitted_app, Hlog.
  - apply stream_frame; [exact pins_distinct| |exact Hlog].
    apply sent_frame_u8, Hcs.
  - exact Hheap.
  - exact Hloads.
Qed.

(** [endFrame] alone, entered with the clock low as every [transfer] and
    [init] leave it. *)
Lemma endFrame_run count s :
  0 ≤ count ≤ 65535 →
  ∃ s', endFrame dataPin clockPin count s = Some ((), s') ∧
        emitted s s' = pulses (spec_end_frame count) ∧
        (port s clockPin = false →
         stream dataPin clockPin s s' = spec_end_frame count).
Proof.
  intros Hc.
  destruct (does_endFrame dataPin clockPin _ _ Hc s eq_refl)
    as (s' & Hrun & Hlog & _ & _).
  exists s'. split_and!; [exact Hrun|apply emitted_app, Hlog|].
  intros Hclk.
  apply stream_bytes; [exact pins_distinct|exact Hclk| |exact Hlog].
  apply sent_end_u8.
Qed.

End Runs.

(** * The frame format *)

Section Protocol.

Variables dataPin clockPin : Z.

(** The strip hangs on two wires. *)
Hypothesis pins_distinct : dataPin ≠ clockPin.

Local Abbreviation pulses := (flat_map (byte_pulses dataPin clockPin)).
Local Abbreviation write := (write dataPin clockPin).
Local Abbreviation stream := (stream dataPin clockPin).

(** C1.  For every [count >= 1], every brightness in [[0,31]] and every
    array of [count] colours, [write] returns and the strip receives
    exactly [4 + 4*count + 6 + count/16] bytes: the start frame
    [00 00 00 00], then [count] LED words of 4 bytes, then the end frame
    of [6 + count/16] bytes; the GPIO calls of [write] are those of [init]
    and the pulses of these bytes, nothing more. *)
Theorem write_frame_layout colors count brightness cs s :
  array_at (heap s) colors (Z.to_nat count) = Some cs →
  Forall rgb_ok cs →
  1 ≤ count ≤ 65535 →
  0 ≤ brightness ≤ 31 →
  ∃ s',
    write colors count brightness s = Some ((), s') ∧
    stream s s' =
      [0x00; 0x00; 0x00; 0x00]
        ++ flat_map (spec_led_word brightness) cs ++ spec_end_frame count ∧
    emitted s s' = init_calls dataPin clockPin ++ pulses (stream s s') ∧
    Z.of_nat (length (stream s s')) = 4 + 4 * count + 6 + count / 16 ∧
    Z.of_nat (length cs) = count ∧
    Forall (λ w, length w = 4%nat) (spec_led_word brightness <$> cs) ∧
    Z.of_nat (length (flat_map (spec_led_word brightness) cs)) = 4 * count ∧
    Z.of_nat (length (spec_end_frame count)) = 6 + count / 16.
Proof.
  intros Harr Hcs Hc Hb.
  destruct (write_run dataPin clockPin pins_distinct
              colors count brightness cs s) as (s' & Hrun & Hem & Hst & _);
    [exact Harr|exact Hcs|lia|unfold is_u8; lia|].
  pose proof (array_at_length _ _ _ _ Harr) as Hlen.
  exists s'. rewrite Hst. split_and!.
  - exact Hrun.
  - reflexivity.
  - exact Hem.
  - rewrite length_spec_frame by lia. lia.
  - lia.
  - apply Forall_fmap, Forall_true. by intros c.
  - rewrite length_words. lia.
  - apply length_spec_end_frame. lia.
Qed.

(** C2.  For every LED index [i < count], the four bytes that the strip
    receives at offset [4 + 4*i] of a [write] are the brightness header
    [(0b111 << 5) | b], then the blue, the green and the red channel of
    [colors[i]]. *)
Theorem write_led_word colors count brightness cs s i c :
  array_at (heap s) colors (Z.to_nat count) = Some cs →
  Forall rgb_ok cs →
  0 ≤ count ≤ 65535 →
  0 ≤ brightness ≤ 31 →
  0 ≤ i < count →
  heap s !! (colors + i) = Some c →
  ∃ s',
    write colors count brightness s = Some ((), s') ∧
    stream s s' !! Z.to_nat (4 + 4 * i) = Some (Z.lor (Z.shiftl 0x7 5) brightness) ∧
    stream s s' !! Z.to_nat (4 + 4 * i + 1) = Some (blue c) ∧
    stream s s' !! Z.to_nat (4 + 4 * i + 2) = Some (green c) ∧
    stream s s' !! Z.to_nat (4 + 4 * i + 3) = Some (red c).
Proof.
  intros Harr Hcs Hc Hb Hi Hcell.
  destruct (write_run dataPin clockPin pins_distinct
              colors count brightness cs s) as (s' & Hrun & _ & Hst & _);
    [exact Harr|exact Hcs|lia|unfold is_u8; lia|].
  pose proof (array_at_length _ _ _ _ Harr) as Hlen.
  rewrite (array_at_cell _ _ _ _ _ Harr Hi) in Hcell.
  injection Hcell as Hcell.
  destruct (lookup_lt_is_Some_2 cs (Z.to_nat i)) as [c' Hc']; [lia|].
  rewrite (list_lookup_total_correct _ _ _ Hc') in Hcell. subst c'.
  pose proof (word_at_frame brightness cs count _ _ Hc') as Hword.
  exists s'. rewrite Hst. split; [exact Hrun|].
  replace (Z.to_nat (4 + 4 * i)) with (4 + 4 * Z.to_nat i + 0)%nat by lia.
  replace (Z.to_nat (4 + 4 * i + 1)) with (4 + 4 * Z.to_nat i + 1)%nat by lia.
  replace (Z.to_nat (4 + 4 * i + 2)) with (4 + 4 * Z.to_nat i + 2)%nat by lia.
  replace (Z.to_nat (4 + 4 * i + 3)) with (4 + 4 * Z.to_nat i + 3)%nat by lia.
  rewrite !(word_at_lookup _ _ _ _ Hword) by lia. repeat split.
Qed.

(** C3.  For every [count >= 0], [endFrame(count)] sends one byte [0xFF]
    and then [5 + count/16] bytes [0x00], and nothing else; in the stream
    of a whole [write] the byte after the last LED word is [0xFF] and the
    rest of the stream is this end frame. *)
Theorem endFrame_bytes count :
  0 ≤ count ≤ 65535 →
  (∀ s, ∃ s',
     endFrame dataPin clockPin count s = Some ((), s') ∧
     emitted s s' = pulses (0xFF :: replicate (Z.to_nat (5 + count / 16)) 0x00) ∧
     (port s clockPin = false →
      stream s s' = 0xFF :: replicate (Z.to_nat (5 + count / 16)) 0x00)) ∧
  (∀ colors brightness cs s,
     array_at (heap s) colors (Z.to_nat count) = Some cs →
     Forall rgb_ok cs → is_u8 brightness →
     ∃ s',
       write colors count brightness s = Some ((), s') ∧
       stream s s' !! Z.to_nat (4 + 4 * count) = Some 0xFF ∧
       drop (Z.to_nat (4 + 4 * count)) (stream s s') =
         0xFF :: replicate (Z.to_nat (5 + count / 16)) 0x00).
Proof.
  intros Hc. split.
  - intros s. apply endFrame_run; [exact pins_distinct|exact Hc].
  - intros colors brightness cs s Harr Hcs Hb.
    destruct (write_run dataPin clockPin pins_distinct
                colors count brightness cs s) as (s' & Hrun & _ & Hst & _);
      [exact Harr|exact Hcs|exact Hc|exact Hb|].
    pose proof (array_at_length _ _ _ _ Harr) as Hlen.
    assert (Hdrop : drop (Z.to_nat (4 + 4 * count)) (stream s s') =
                    spec_end_frame count).
    { rewrite Hst. replace (Z.to_nat (4 + 4 * count))
        with (4 + 4 * length cs)%nat by lia. apply drop_words_frame. }
    exists s'. split_and!; [exact Hrun| |exact Hdrop].
    rewrite <- (Nat.add_0_r (Z.to_nat _)), <- lookup_drop, Hdrop.
    reflexivity.
Qed.

(** C9.  [write] with [count = 0] sends the ten bytes
    [00 00 00 00 FF 00 00 00 00 00] and reads no element of [colors],
    whatever [colors] points to. *)
Theorem write_zero colors brightness s :
  ∃ s',
    write colors 0 brightness s = Some ((), s') ∧
    stream s s' = [0x00; 0x00; 0x00; 0x00; 0xFF; 0x00; 0x00; 0x00; 0x00; 0x00] ∧
    emitted s s' = init_calls dataPin clockPin ++ pulses (stream s s') ∧
    loads s' = loads s.
Proof.
  destruct (does_write dataPin clockPin (heap s) colors 0 brightness [])
    with (s := s) as (s' & Hrun & Hlog & _ & Hloads & _);
    [reflexivity|lia|reflexivity|].
  assert (Hst : stream s s' = sent_frame brightness [] 0).
  { apply stream_frame; [exact pins_distinct| |exact Hlog].
    apply sent_frame_u8. constructor. }
  exists s'. rewrite Hst. split_and!.
  - exact Hrun.
  - reflexivity.
  - apply emitted_app, Hlog.
  - rewrite Hloads. apply app_nil_r.
Qed.

(** C10.  [write] never stores to the caller's memory: after it returns
    every cell, so every element of [colors], is what it was, and the
    cells it read are [colors[0]], ..., [colors[count - 1]], each once,
    in this order, and no others. *)
Theorem write_reads_only colors count brightness cs s :
  array_at (heap s) colors (Z.to_nat count) = Some cs →
  0 ≤ count ≤ 65535 →
  ∃ s',
    write colors count brightness s = Some ((), s') ∧
    heap s' = heap s ∧
    array_at (heap s') colors (Z.to_nat count) = Some cs ∧
    loads s' = loads s ++ ((λ i, colors + i) <$> seqZ 0 count).
Proof.
  intros Harr Hc.
  destruct (does_write dataPin clockPin _ _ _ brightness _ Harr Hc s eq_refl)
    as (s' & Hrun & _ & Hheap & Hloads & _).
  exists s'. split_and!.
  - exact Hrun.
  - exact Hheap.
  - rewrite Hheap. exact Harr.
  - rewrite Hloads. f_equal.
    change (λ i, colors + i) with (Z.add colors).
    rewrite fmap_add_seqZ. by rewrite Z.add_0_r.
Qed.

(** C7.  The overload of [sendColor] that takes a colour structure and
    the one that takes the three channels do the same: the same GPIO
    calls, so the same bytes, for every red, green, blue and
    brightness. *)
Theorem sendColor_overloads r g b brightness s :
  sendColor_rgb dataPin clockPin (RGB r g b) brightness s =
    sendColor dataPin clockPin r g b brightness s ∧
  ∃ s',
    sendColor dataPin clockPin r g b brightness s = Some ((), s') ∧
    emitted s s' = pulses [u8 (Z.lor 0xE0 brightness); b; g; r].
Proof.
  split.
  - unfold sendColor_rgb. cbn [red green blue]. reflexivity.
  - destruct (does_sendColor dataPin clockPin (heap s) r g b brightness s eq_refl)
      as (s' & Hrun & Hlog & _).
    exists s'. split; [exact Hrun|apply emitted_app, Hlog].
Qed.

(** C4.  For every 8-bit brightness, also outside [[0,31]], the header
    byte that [sendColor] sends is [0b11100000 | (brightness & 0b11111)]:
    the brightness is masked to its low five bits, it does not
    saturate. *)
Theorem brightness_masked r g b brightness s :
  is_u8 r → is_u8 g → is_u8 b → is_u8 brightness →
  port s clockPin = false →
  sendColor dataPin clockPin r g b brightness =
    sendColor dataPin clockPin r g b (Z.land brightness 0x1F) ∧
  ∃ s',
    sendColor dataPin clockPin r g b brightness s = Some ((), s') ∧
    stream s s' = [Z.lor 0xE0 (Z.land brightness 0x1F); b; g; r] ∧
    Z.lor 0xE0 brightness = Z.lor 0xE0 (Z.land brightness 0x1F) ∧
    Z.lor 0xE0 (Z.land brightness 0x1F) = 0xE0 + brightness `mod` 32.
Proof.
  intros Hr Hg Hb Hbr Hclk.
  destruct (header_byte brightness Hbr) as (Hhdr & Hmask & Hmod).
  split.
  - unfold sendColor. rewrite <- Hmask. reflexivity.
  - destruct (does_sendColor dataPin clockPin (heap s) r g b brightness s eq_refl)
      as (s' & Hrun & Hlog & _).
    exists s'. split_and!.
    + exact Hrun.
    + rewrite <- Hmask.
      assert (Hu8 : u8 (Z.lor 0xE0 brightness) = Z.lor 0xE0 brightness).
      { rewrite Hhdr. reflexivity. }
      rewrite <- Hu8.
      apply stream_bytes; [exact pins_distinct|exact Hclk| |exact Hlog].
      repeat (constructor; [assumption || apply u8_range|]). constructor.
    + exact Hmask.
    + rewrite <- Hmask. exact Hmod.
Qed.

(** C5.  [transfer(b)] sends the eight bits of [b], the most significant
    first, each as: data line to the bit, clock up, clock down; the
    strip samples exactly these bits; afterwards the clock line is low
    and the data line holds bit 0 of [b]. *)
Theorem transfer_msb_first b s :
  ∃ s',
    transfer dataPin clockPin b s = Some ((), s') ∧
    emitted s s' =
      flat_map (λ k, [DigitalWrite dataPin (Z.testbit b k);
                      DigitalWrite clockPin true;
                      DigitalWrite clockPin false])
               [7; 6; 5; 4; 3; 2; 1; 0] ∧
    (port s clockPin = false →
     wire_bits dataPin clockPin (port s clockPin) (port s dataPin) (emitted s s') =
     Z.testbit b <$> [7; 6; 5; 4; 3; 2; 1; 0]) ∧
    port s' clockPin = false ∧
    port s' dataPin = Z.testbit b 0.
Proof.
  destruct (does_transfer dataPin clockPin (heap s) b s eq_refl)
    as (s' & Hrun & Hlog & _ & _ & Hport).
  pose proof (emitted_app _ _ _ Hlog) as Hem.
  exists s'. split_and!.
  - exact Hrun.
  - exact Hem.
  - intros Hclk. rewrite Hem, Hclk.
    rewrite <- (app_nil_r (byte_pulses _ _ _)).
    rewrite (wire_bits_byte dataPin clockPin pins_distinct). apply app_nil_r.
  - rewrite Hport. cbn [byte_pulses bit_pulse flat_map app fold_left drive].
    apply fn_lookup_insert.
  - rewrite Hport. cbn [byte_pulses bit_pulse flat_map app fold_left drive].
    rewrite !(fn_lookup_insert_ne _ clockPin dataPin) by done.
    apply fn_lookup_insert.
Qed.

(** C6.  For every [count >= 1] the end frame supplies at least
    [65 + (count - 1)] clock edges after the last colour word, and so at
    least [count - 1]: two edges per bit of the [0xFF] byte and of the
    [5 + count/16] zero bytes.  The zero bytes alone already supply
    [65 + (count - 1)] edges. *)
Theorem endFrame_clock_edges count s :
  1 ≤ count ≤ 65535 →
  ∃ s',
    endFrame dataPin clockPin count s = Some ((), s') ∧
    emitted s s' =
      byte_pulses dataPin clockPin 0xFF ++
      pulses (replicate (Z.to_nat (5 + count / 16)) 0) ∧
    65 + (count - 1) ≤
      clock_edges clockPin false (pulses (replicate (Z.to_nat (5 + count / 16)) 0)) ∧
    65 + (count - 1) ≤ clock_edges clockPin (port s clockPin) (emitted s s') ∧
    count - 1 ≤ clock_edges clockPin (port s clockPin) (emitted s s').
Proof.
  intros Hc.
  destruct (does_endFrame dataPin clockPin (heap s) count) with (s := s)
    as (s' & Hrun & Hlog & _); [lia|reflexivity|].
  pose proof (emitted_app _ _ _ Hlog) as Hem.
  change (pulses (sent_end count))
    with (byte_pulses dataPin clockPin 0xFF ++
          pulses (replicate (Z.to_nat (5 + count / 16)) 0)) in Hem.
  pose proof (end_bound count ltac:(lia)) as Hb.
  pose proof (Z.div_mod count 16 ltac:(lia)) as Hdiv.
  pose proof (Z.mod_pos_bound count 16 ltac:(lia)) as Hmod.
  assert (Hzeros :
    clock_edges clockPin false (pulses (replicate (Z.to_nat (5 + count / 16)) 0)) =
    16 * (5 + count / 16)).
  { rewrite (clock_edges_bytes dataPin clockPin pins_distinct), length_replicate.
    lia. }
  exists s'. rewrite Hem.
  rewrite (clock_edges_byte dataPin clockPin pins_distinct), Hzeros.
  split_and!.
  - exact Hrun.
  - reflexivity.
  - lia.
  - destruct (port s clockPin); lia.
  - destruct (port s clockPin); lia.
Qed.

(** C8.  Writing the colours in another order, given by a permutation
    [p] of the indices below [count], changes the stream only in the order
    of its [count] LED words, which follow [p]; the start frame, the end
    frame and the length of the stream stay the same.  Both streams are a
    start frame, [count] words of four bytes and an end frame, and the
    words of the first are those of its colours. *)
Theorem write_permuted p colors colors' count brightness cs s t :
  p ≡ₚ seq 0 (Z.to_nat count) →
  array_at (heap s) colors (Z.to_nat count) = Some cs →
  array_at (heap t) colors' (Z.to_nat count) = Some (permute p cs) →
  Forall rgb_ok cs →
  0 ≤ count ≤ 65535 →
  is_u8 brightness →
  ∃ s' t',
    write colors count brightness s = Some ((), s') ∧
    write colors' count brightness t = Some ((), t') ∧
    stream s s' =
      [0x00; 0x00; 0x00; 0x00]
        ++ concat (led_words (stream s s') (Z.to_nat count))
        ++ spec_end_frame count ∧
    stream t t' =
      [0x00; 0x00; 0x00; 0x00]
        ++ concat (led_words (stream t t') (Z.to_nat count))
        ++ spec_end_frame count ∧
    led_words (stream s s') (Z.to_nat count) = spec_led_word brightness <$> cs ∧
    length (led_words (stream s s') (Z.to_nat count)) = Z.to_nat count ∧
    Forall (λ w, length w = 4%nat) (led_words (stream s s') (Z.to_nat count)) ∧
    led_words (stream t t') (Z.to_nat count) =
      permute p (led_words (stream s s') (Z.to_nat count)) ∧
    take 4 (stream t t') = take 4 (stream s s') ∧
    drop (Z.to_nat (4 + 4 * count)) (stream t t') =
      drop (Z.to_nat (4 + 4 * count)) (stream s s') ∧
    length (stream t t') = length (stream s s') ∧
    Z.of_nat (length (stream s s')) = 4 + 4 * count + 6 + count / 16.
Proof.
  intros Hp Harr Harr' Hcs Hc Hb.
  pose proof (array_at_length _ _ _ _ Harr) as Hlen.
  pose proof (array_at_length _ _ _ _ Harr') as Hlen'.
  assert (Hcs' : Forall rgb_ok (permute p cs)).
  { apply Forall_fmap, Forall_true. intros j. by apply rgb_ok_lookup_total. }
  destruct (write_run dataPin clockPin pins_distinct
              colors count brightness cs s) as (s' & Hrun & _ & Hst & _);
    [exact Harr|exact Hcs|exact Hc|exact Hb|].
  destruct (write_run dataPin clockPin pins_distinct
              colors' count brightness (permute p cs) t)
    as (t' & Hrun' & _ & Hst' & _);
    [exact Harr'|exact Hcs'|exact Hc|exact Hb|].
  assert (Hw : led_words (spec_frame brightness cs count) (Z.to_nat count) =
               spec_led_word brightness <$> cs).
  { rewrite <- Hlen. apply led_words_frame. }
  assert (Hw' : led_words (spec_frame brightness (permute p cs) count)
                  (Z.to_nat count) =
                spec_led_word brightness <$> permute p cs).
  { rewrite <- Hlen'. apply led_words_frame. }
  exists s', t'. rewrite Hst, Hst', Hw, Hw'. split_and!.
  - exact Hrun.
  - exact Hrun'.
  - apply spec_frame_concat.
  - apply spec_frame_concat.
  - reflexivity.
  - rewrite length_fmap. exact Hlen.
  - apply Forall_fmap, Forall_true. by intros c.
  - apply permute_fmap. by rewrite Hlen.
  - reflexivity.
  - replace (Z.to_nat (4 + 4 * count)) with (4 + 4 * length cs)%nat at 2 by lia.
    replace (Z.to_nat (4 + 4 * count))
      with (4 + 4 * length (permute p cs))%nat by lia.
    by rewrite !drop_words_frame.
  - apply Nat2Z.inj. rewrite !length_spec_frame by lia. lia.
  - rewrite length_spec_frame by lia. lia.
Qed.

End Protocol.

(** * The frame format on a concrete board

    A strip on pins 11 and 12, as in the Brightness example. *)

Lemma pins_11_12 : (11 : Z) ≠ 12.
Proof. discriminate. Defined.

(** The driver runs: the end-to-end examples of the protocol. *)
Example write_one_led :
  received 11 12 (write 11 12 100 1 31) (demo_board true) =
  Some [0x00; 0x00; 0x00; 0x00; 0xFF; 0x03; 0x02; 0x01;
        0xFF; 0x00; 0x00; 0x00; 0x00; 0x00].
Proof. vm_compute. reflexivity. Qed.

Example write_no_led :
  received 11 12 (write 11 12 100 0 31) (demo_board true) =
  Some [0x00; 0x00; 0x00; 0x00; 0xFF; 0x00; 0x00; 0x00; 0x00; 0x00].
Proof. vm_compute. reflexivity. Qed.

(** Reading past the caller's array has no defined result. *)
Example write_past_array :
  received 11 12 (write 11 12 100 3 31) (demo_board true) = None.
Proof. vm_compute. reflexivity. Qed.

(** Brightness 32 is sent as brightness 0, not as 31. *)
Example sendColor_brightness_32 :
  received 11 12 (sendColor 11 12 1 2 3 32) (demo_board false) =
  Some [0xE0; 3; 2; 1].
Proof. vm_compute. reflexivity. Qed.

(** The strip samples on rising edges: entered with the clock high,
    outside a frame, [endFrame] loses its first bit on the wire. *)
Example endFrame_clock_high :
  received 11 12 (endFrame 11 12 17) (demo_board true) =
  Some [0xFE; 0; 0; 0; 0; 0].
Proof. vm_compute. reflexivity. Qed.

Example write_frame_layout_witness :
  ∃ s', write 11 12 100 2 31 (demo_board true) = Some ((), s') ∧
        stream 11 12 (demo_board true) s' =
          [0; 0; 0; 0; 255; 3; 2; 1; 255; 7; 0; 255; 255; 0; 0; 0; 0; 0] ∧
        Z.of_nat (length (stream 11 12 (demo_board true) s')) = 18.
Proof.
  destruct (write_frame_layout 11 12 pins_11_12 100 2 31
              [RGB 1 2 3; RGB 255 0 7] (demo_board true))
    as (s' & Hrun & Hst & _ & Hlen & _).
  - reflexivity.
  - u8_solve.
  - lia.
  - lia.
  - exists s'. split; [exact Hrun|]. split; [exact Hst|exact Hlen].
Defined.

Example write_led_word_witness :
  ∃ s', write 11 12 100 2 31 (demo_board true) = Some ((), s') ∧
        stream 11 12 (demo_board true) s' !! 8%nat = Some 255 ∧
        stream 11 12 (demo_board true) s' !! 9%nat = Some 7 ∧
        stream 11 12 (demo_board true) s' !! 10%nat = Some 0 ∧
        stream 11 12 (demo_board true) s' !! 11%nat = Some 255.
Proof.
  destruct (write_led_word 11 12 pins_11_12 100 2 31
              [RGB 1 2 3; RGB 255 0 7] (demo_board true) 1 (RGB 255 0 7))
    as (s' & Hrun & H0 & H1 & H2 & H3).
  - reflexivity.
  - u8_solve.
  - lia.
  - lia.
  - lia.
  - reflexivity.
  - exists s'. split; [exact Hrun|].
    split; [exact H0|]. split; [exact H1|]. split; [exact H2|exact H3].
Defined.

Example endFrame_bytes_witness :
  (∃ s', endFrame 11 12 2 (demo_board false) = Some ((), s') ∧
         stream 11 12 (demo_board false) s' = [255; 0; 0; 0; 0; 0]) ∧
  (∃ s', write 11 12 100 2 31 (demo_board true) = Some ((), s') ∧
         stream 11 12 (demo_board true) s' !! 12%nat = Some 255).
Proof.
  destruct (endFrame_bytes 11 12 pins_11_12 2) as [Hend Hwrite]; [lia|].
  split.
  - destruct (Hend (demo_board false)) as (s' & Hrun & _ & Hst).
    exists s'. split; [exact Hrun|]. apply Hst. reflexivity.
  - destruct (Hwrite 100 31 [RGB 1 2 3; RGB 255 0 7] (demo_board true))
      as (s' & Hrun & Hff & _).
    + reflexivity.
    + u8_solve.
    + u8_solve.
    + exists s'. split; [exact Hrun|exact Hff].
Defined.

Example brightness_masked_witness :
  ∃ s', sendColor 11 12 1 2 3 33 (demo_board false) = Some ((), s') ∧
        stream 11 12 (demo_board false) s' = [0xE1; 3; 2; 1].
Proof.
  destruct (brightness_masked 11 12 pins_11_12 1 2 3 33 (demo_board false))
    as (_ & s' & Hrun & Hst & _).
  - u8_solve.
  - u8_solve.
  - u8_solve.
  - u8_solve.
  - reflexivity.
  - exists s'. split; [exact Hrun|exact Hst].
Defined.

Example transfer_msb_first_witness :
  ∃ s', transfer 11 12 0xA5 (demo_board true) = Some ((), s') ∧
        port s' 12 = false ∧ port s' 11 = true.
Proof.
  destruct (transfer_msb_first 11 12 pins_11_12 0xA5 (demo_board true))
    as (s' & Hrun & _ & _ & Hclk & Hdat).
  exists s'. split; [exact Hrun|]. split; [exact Hclk|exact Hdat].
Defined.

Example endFrame_clock_edges_witness :
  ∃ s', endFrame 11 12 72 (demo_board true) = Some ((), s') ∧
        65 + (72 - 1) ≤ clock_edges 12 true (emitted (demo_board true) s').
Proof.
  destruct (endFrame_clock_edges 11 12 pins_11_12 72 (demo_board true))
    as (s' & Hrun & _ & _ & Hedges & _); [lia|].
  exists s'. split; [exact Hrun|exact Hedges].
Defined.

Example write_permuted_witness :
  ∃ s' t', write 11 12 100 2 31 (demo_board true) = Some ((), s') ∧
           write 11 12 200 2 31 (demo_board true) = Some ((), t') ∧
           led_words (stream 11 12 (demo_board true) s') 2 =
             [[255; 3; 2; 1]; [255; 7; 0; 255]] ∧
           led_words (stream 11 12 (demo_board true) t') 2 =
             permute [1; 0]%nat (led_words (stream 11 12 (demo_board true) s') 2).
Proof.
  destruct (write_permuted 11 12 pins_11_12 [1; 0]%nat 100 200 2 31
              [RGB 1 2 3; RGB 255 0 7] (demo_board true) (demo_board true))
    as (s' & t' & Hrun & Hrun' & _ & _ & Hcols & _ & _ & Hwords & _).
  - apply perm_swap.
  - reflexivity.
  - reflexivity.
  - u8_solve.
  - lia.
  - u8_solve.
  - exists s', t'. split; [exact Hrun|]. split; [exact Hrun'|].
    split; [exact Hcols|exact Hwords].
Defined.

Example write_zero_witness :
  ∃ s', write 11 12 100 0 31 (demo_board true) = Some ((), s') ∧
        stream 11 12 (demo_board true) s' = [0; 0; 0; 0; 255; 0; 0; 0; 0; 0] ∧
        loads s' = [].
Proof.
  destruct (write_zero 11 12 pins_11_12 100 31 (demo_board true))
    as (s' & Hrun & Hst & _ & Hloads).
  exists s'. split; [exact Hrun|]. split; [exact Hst|exact Hloads].
Defined.

Example write_reads_only_witness :
  ∃ s', write 11 12 100 2 31 (demo_board true) = Some ((), s') ∧
        heap s' = heap (demo_board true) ∧ loads s' = [100; 101].
Proof.
  destruct (write_reads_only 11 12 100 2 31
              [RGB 1 2 3; RGB 255 0 7] (demo_board true))
    as (s' & Hrun & Hheap & _ & Hloads).
  - reflexivity.
  - lia.
  - exists s'. split; [exact Hrun|]. split; [exact Hheap|exact Hloads].
Defined.

(** * The rest of the driver *)

(** ** Pin directions *)

Lemma bind_inv {A B} (m : io A) (k : A → io B) s y s' :
  io_bind m k s = Some (y, s') →
  ∃ x s1, m s = Some (x, s1) ∧ k x s1 = Some (y, s').
Proof.
  unfold io_bind. destruct (m s) as [[x s1]|] eqn:Hm; [|discriminate].
  intros Hk. exists x, s1. split; [reflexivity|exact Hk].
Qed.

Lemma keeps_ddr_ret {A} (x : A) : keeps_ddr (io_ret x).
Proof. intros s y s' [= _ <-]. reflexivity. Qed.

Lemma keeps_ddr_bind {A B} (m : io A) (k : A → io B) :
  keeps_ddr m → (∀ x, keeps_ddr (k x)) → keeps_ddr (io_bind m k).
Proof.
  intros Hm Hk s y s' Hrun.
  apply bind_inv in Hrun as (x & s1 & Hrun1 & Hrun2).
  rewrite (Hk x _ _ _ Hrun2). exact (Hm _ _ _ Hrun1).
Qed.

Lemma keeps_ddr_digitalWrite pin val : keeps_ddr (digitalWrite pin val).
Proof. intros s y s' [= _ <-]. reflexivity. Qed.

Lemma keeps_ddr_load addr : keeps_ddr (load addr).
Proof.
  intros s y s'. unfold load. destruct (heap s !! addr); [|discriminate].
  intros [= _ <-]. reflexivity.
Qed.

Lemma keeps_ddr_for fuel i bound body :
  (∀ j, keeps_ddr (body j)) → keeps_ddr (for_u16 fuel i bound body).
Proof.
  intros Hbody. revert i. induction fuel as [|fuel IH]; intros i.
  - intros s y s'. discriminate.
  - cbn [for_u16]. destruct (i <? bound).
    + apply keeps_ddr_bind; [apply Hbody|]. intros _. apply IH.
    + apply keeps_ddr_ret.
Qed.

Section Lines.

Variables dataPin clockPin : Z.

Local Abbreviation pulses := (flat_map (byte_pulses dataPin clockPin)).

Lemma keeps_ddr_transfer b : keeps_ddr (transfer dataPin clockPin b).
Proof.
  unfold transfer.
  do 23 (apply keeps_ddr_bind; [apply keeps_ddr_digitalWrite|intros _]).
  apply keeps_ddr_digitalWrite.
Qed.

Lemma keeps_ddr_sendColor r g b brightness :
  keeps_ddr (sendColor dataPin clockPin r g b brightness).
Proof.
  unfold sendColor.
  do 3 (apply keeps_ddr_bind; [apply keeps_ddr_transfer|intros _]).
  apply keeps_ddr_transfer.
Qed.

Lemma keeps_ddr_endFrame count : keeps_ddr (endFrame dataPin clockPin count).
Proof.
  unfold endFrame. apply keeps_ddr_bind; [apply keeps_ddr_transfer|intros _].
  apply keeps_ddr_for. intros _. apply keeps_ddr_transfer.
Qed.

Lemma keeps_ddr_sendColors leds : keeps_ddr (sendColors dataPin clockPin leds).
Proof.
  induction leds as [|[c b] leds IH]; cbn [sendColors].
  - apply keeps_ddr_ret.
  - apply keeps_ddr_bind; [|intros _; exact IH].
    exact (keeps_ddr_sendColor (red c) (green c) (blue c) b).
Qed.

Lemma ddr_init s s' :
  init dataPin clockPin s = Some ((), s') →
  ddr s' = <[clockPin := OUTPUT]> (<[dataPin := OUTPUT]> (ddr s)).
Proof. intros [= <-]. reflexivity. Qed.

Lemma ddr_startFrame s s' :
  startFrame dataPin clockPin s = Some ((), s') →
  ddr s' = <[clockPin := OUTPUT]> (<[dataPin := OUTPUT]> (ddr s)).
Proof.
  unfold startFrame. intros Hrun.
  apply bind_inv in Hrun as ([] & s0 & Hinit & Hrest).
  rewrite <- (ddr_init _ _ Hinit). revert Hrest.
  apply (keeps_ddr_bind (transfer dataPin clockPin 0)); [apply keeps_ddr_transfer|].
  intros _.
  do 2 (apply keeps_ddr_bind; [apply keeps_ddr_transfer|intros _]).
  apply keeps_ddr_transfer.
Qed.

Lemma keeps_ddr_write_rest colors count brightness :
  keeps_ddr
    (for_u16 u16_fuel 0 count
       (λ i, let* c := load (colors + i) in
             sendColor_rgb dataPin clockPin c brightness) >>
     endFrame dataPin clockPin count).
Proof.
  apply keeps_ddr_bind.
  - apply keeps_ddr_for. intros j.
    apply keeps_ddr_bind; [apply keeps_ddr_load|]. intros c.
    exact (keeps_ddr_sendColor (red c) (green c) (blue c) brightness).
  - intros _. apply keeps_ddr_endFrame.
Qed.

Lemma ddr_write colors count brightness s s' :
  write dataPin clockPin colors count brightness s = Some ((), s') →
  ddr s' = <[clockPin := OUTPUT]> (<[dataPin := OUTPUT]> (ddr s)).
Proof.
  unfold write. intros Hrun.
  apply bind_inv in Hrun as ([] & s1 & Hstart & Hrest).
  rewrite <- (ddr_startFrame _ _ Hstart).
  exact (keeps_ddr_write_rest colors count brightness s1 () s' Hrest).
Qed.

(** *** Latches after the pulses of a byte *)

Lemma drive_byte_clock b latch :
  fold_left drive (byte_pulses dataPin clockPin b) latch clockPin = false.
Proof.
  cbn [byte_pulses bit_pulse flat_map app fold_left drive].
  apply fn_lookup_insert.
Qed.

Lemma drive_byte_zero_data latch :
  fold_left drive (byte_pulses dataPin clockPin 0) latch dataPin = false.
Proof.
  cbn [byte_pulses bit_pulse flat_map app fold_left drive].
  destruct (decide (clockPin = dataPin)) as [<-|Hne].
  - apply fn_lookup_insert.
  - rewrite !(fn_lookup_insert_ne _ clockPin dataPin) by exact Hne.
    apply fn_lookup_insert.
Qed.

Lemma drive_byte_other b latch p :
  p ≠ dataPin → p ≠ clockPin →
  fold_left drive (byte_pulses dataPin clockPin b) latch p = latch p.
Proof.
  intros Hd Hc.
  cbn [byte_pulses bit_pulse flat_map app fold_left drive].
  repeat (rewrite ?(fn_lookup_insert_ne _ clockPin p),
                  ?(fn_lookup_insert_ne _ dataPin p) by congruence).
  reflexivity.
Qed.

Lemma drive_bytes_other bs latch p :
  p ≠ dataPin → p ≠ clockPin → fold_left drive (pulses bs) latch p = latch p.
Proof.
  intros Hd Hc. revert latch. induction bs as [|b bs IH]; intros latch; [done|].
  cbn [flat_map]. rewrite fold_left_app, IH. by apply drive_byte_other.
Qed.

Lemma drive_init_other latch p :
  p ≠ dataPin → p ≠ clockPin →
  fold_left drive (init_calls dataPin clockPin) latch p = latch p.
Proof.
  intros Hd Hc. cbn [init_calls fold_left drive].
  rewrite (fn_lookup_insert_ne _ clockPin p), (fn_lookup_insert_ne _ dataPin p)
    by congruence.
  reflexivity.
Qed.

(** The end frame ends with a zero byte. *)
Lemma sent_end_snoc count :
  0 ≤ count → ∃ front, sent_end count = front ++ [0].
Proof.
  intros Hc. assert (0 ≤ count / 16) by (apply Z.div_pos; lia).
  unfold sent_end.
  replace (Z.to_nat (5 + count / 16)) with (S (Z.to_nat (4 + count / 16))) by lia.
  rewrite replicate_S_end.
  by exists (0xFF :: replicate (Z.to_nat (4 + count / 16)) 0).
Qed.

(** After pulses that end with a zero byte both latches are low. *)
Lemma drive_ends_zero calls front latch :
  fold_left drive (calls ++ pulses (front ++ [0])) latch dataPin = false ∧
  fold_left drive (calls ++ pulses (front ++ [0])) latch clockPin = false.
Proof.
  rewrite flat_map_app. cbn [flat_map]. rewrite app_nil_r, !fold_left_app.
  split; [apply drive_byte_zero_data|apply drive_byte_clock].
Qed.

End Lines.

(** ** The state of the lines *)

Section LineState.

Variables dataPin clockPin : Z.

Local Abbreviation pulses := (flat_map (byte_pulses dataPin clockPin)).

(** X1.  [init] returns from every state with both lines low and both
    pins outputs; each latch is cleared before its pin is made an output, so
    the strip samples no bit; no other pin and no memory is touched. *)
Theorem init_lines_idle s :
  ∃ s',
    init dataPin clockPin s = Some ((), s') ∧
    emitted s s' =
      [DigitalWrite dataPin false; PinMode dataPin OUTPUT;
       DigitalWrite clockPin false; PinMode clockPin OUTPUT] ∧
    port s' dataPin = false ∧ port s' clockPin = false ∧
    ddr s' dataPin = OUTPUT ∧ ddr s' clockPin = OUTPUT ∧
    (∀ p, p ≠ dataPin → p ≠ clockPin → port s' p = port s p ∧ ddr s' p = ddr s p) ∧
    wire_bits dataPin clockPin (port s clockPin) (port s dataPin) (emitted s s') = [] ∧
    heap s' = heap s ∧ loads s' = loads s.
Proof.
  destruct (does_init dataPin clockPin (heap s) s eq_refl)
    as (s' & Hrun & Hlog & Hheap & Hloads & Hport).
  pose proof (ddr_init _ _ _ _ Hrun) as Hddr.
  exists s'. rewrite (emitted_app _ _ _ Hlog), Hport, Hddr.
  cbn [init_calls fold_left drive]. split_and!.
  - exact Hrun.
  - reflexivity.
  - destruct (decide (clockPin = dataPin)) as [<-|Hne].
    + apply fn_lookup_insert.
    + rewrite (fn_lookup_insert_ne _ clockPin dataPin) by exact Hne.
      apply fn_lookup_insert.
  - apply fn_lookup_insert.
  - destruct (decide (clockPin = dataPin)) as [<-|Hne].
    + apply fn_lookup_insert.
    + rewrite (fn_lookup_insert_ne _ clockPin dataPin) by exact Hne.
      apply fn_lookup_insert.
  - apply fn_lookup_insert.
  - intros p Hd Hc.
    rewrite !(fn_lookup_insert_ne _ clockPin p), !(fn_lookup_insert_ne _ dataPin p)
      by congruence.
    split; reflexivity.
  - unfold init_calls. cbn [wire_bits]. repeat case_decide; reflexivity.
  - exact Hheap.
  - rewrite Hloads. apply app_nil_r.
Qed.

(** X2.  [endFrame] returns with the clock and the data line low, whatever
    state it is entered in, and changes no pin direction, no other pin and
    no memory: the lines are outputs that drive low when they were
    outputs. *)
Theorem endFrame_lines_low count s :
  0 ≤ count ≤ 65535 →
  ∃ s',
    endFrame dataPin clockPin count s = Some ((), s') ∧
    port s' dataPin = false ∧ port s' clockPin = false ∧
    ddr s' = ddr s ∧
    (∀ p, p ≠ dataPin → p ≠ clockPin → port s' p = port s p) ∧
    heap s' = heap s ∧ loads s' = loads s.
Proof.
  intros Hc.
  destruct (does_endFrame dataPin clockPin (heap s) count Hc s eq_refl)
    as (s' & Hrun & _ & Hheap & Hloads & Hport).
  destruct (sent_end_snoc count) as [front Hfront]; [lia|].
  exists s'. rewrite Hport, Hfront. split_and!.
  - exact Hrun.
  - apply (drive_ends_zero dataPin clockPin []).
  - apply (drive_ends_zero dataPin clockPin []).
  - exact (keeps_ddr_endFrame dataPin clockPin count _ _ _ Hrun).
  - intros p Hd Hk. by apply drive_bytes_other.
  - exact Hheap.
  - rewrite Hloads. apply app_nil_r.
Qed.

(** X3.  After [write] both lines are outputs that drive low, from every
    state, and no other pin has changed. *)
Theorem write_lines_idle colors count brightness cs s :
  array_at (heap s) colors (Z.to_nat count) = Some cs →
  0 ≤ count ≤ 65535 →
  ∃ s',
    write dataPin clockPin colors count brightness s = Some ((), s') ∧
    port s' dataPin = false ∧ port s' clockPin = false ∧
    ddr s' dataPin = OUTPUT ∧ ddr s' clockPin = OUTPUT ∧
    (∀ p, p ≠ dataPin → p ≠ clockPin → port s' p = port s p ∧ ddr s' p = ddr s p).
Proof.
  intros Harr Hc.
  destruct (does_write dataPin clockPin _ _ _ brightness _ Harr Hc s eq_refl)
    as (s' & Hrun & _ & _ & _ & Hport).
  pose proof (ddr_write _ _ _ _ _ _ _ Hrun) as Hddr.
  destruct (sent_end_snoc count) as [front Hfront]; [lia|].
  exists s'. rewrite Hport, Hddr. split_and!.
  - exact Hrun.
  - unfold sent_frame. rewrite Hfront, !app_assoc. apply drive_ends_zero.
  - unfold sent_frame. rewrite Hfront, !app_assoc. apply drive_ends_zero.
  - destruct (decide (clockPin = dataPin)) as [<-|Hne].
    + apply fn_lookup_insert.
    + rewrite (fn_lookup_insert_ne _ clockPin dataPin) by exact Hne.
      apply fn_lookup_insert.
  - apply fn_lookup_insert.
  - intros p Hd Hk. split.
    + rewrite fold_left_app, drive_bytes_other by done.
      by apply drive_init_other.
    + rewrite !(fn_lookup_insert_ne _ clockPin p), !(fn_lookup_insert_ne _ dataPin p)
        by congruence.
      reflexivity.
Qed.

End LineState.

(** ** The low-level interface *)

Lemma length_bits_of_bytes bs :
  length (flat_map bits_of_byte bs) = (8 * length bs)%nat.
Proof. induction bs as [|b bs IH]; [done|]. cbn [flat_map]. rewrite length_app, IH. cbn. lia. Qed.

Lemma sent_led_spec led : led_ok led → sent_led led = spec_led led.
Proof. intros [_ Hb]. by apply sent_word_spec. Qed.

Lemma sent_leds_spec leds :
  Forall led_ok leds → flat_map sent_led leds = flat_map spec_led leds.
Proof.
  induction 1 as [|led leds Hled _ IH]; [done|].
  cbn [flat_map]. by rewrite IH, sent_led_spec.
Qed.

Lemma sent_leds_u8 leds : Forall led_ok leds → Forall is_u8 (flat_map sent_led leds).
Proof.
  induction 1 as [|[c b] leds [(Hr & Hg & Hb) _] _ IH]; [constructor|].
  cbn [flat_map]. apply Forall_app. split; [|exact IH].
  unfold sent_led, sent_word. cbn [fst snd] in *.
  repeat (constructor; [assumption || apply u8_range|]). constructor.
Qed.

Section LowLevelEffects.

Variables dataPin clockPin : Z.

Local Abbreviation pulses := (flat_map (byte_pulses dataPin clockPin)).

Lemma does_sendColors h leds :
  does h (sendColors dataPin clockPin leds) (pulses (flat_map sent_led leds)) [].
Proof.
  induction leds as [|[c b] leds IH]; cbn [sendColors flat_map].
  - apply does_ret.
  - eapply does_eq.
    + apply does_seq; [|exact IH].
      exact (does_sendColor dataPin clockPin h (red c) (green c) (blue c) b).
    + rewrite (flat_map_app _ (sent_led (c, b))). reflexivity.
    + reflexivity.
Qed.

Lemma does_low_level_frame h leds count :
  0 ≤ count ≤ 65535 →
  does h (low_level_frame dataPin clockPin leds count)
       (init_calls dataPin clockPin ++
        pulses ([0; 0; 0; 0] ++ flat_map sent_led leds ++ sent_end count)) [].
Proof.
  intros Hc. eapply does_eq.
  - unfold low_level_frame.
    apply does_seq; [apply does_startFrame|].
    apply does_seq; [apply does_sendColors|apply does_endFrame; exact Hc].
  - rewrite !flat_map_app, <- app_assoc. reflexivity.
  - reflexivity.
Qed.

Lemma ddr_low_level_frame leds count s s' :
  low_level_frame dataPin clockPin leds count s = Some ((), s') →
  ddr s' = <[clockPin := OUTPUT]> (<[dataPin := OUTPUT]> (ddr s)).
Proof.
  unfold low_level_frame. intros Hrun.
  apply bind_inv in Hrun as ([] & s1 & Hstart & Hrest).
  rewrite <- (ddr_startFrame _ _ _ _ Hstart).
  assert (Hk : keeps_ddr (sendColors dataPin clockPin leds >>
                          endFrame dataPin clockPin count)).
  { apply keeps_ddr_bind; [apply keeps_ddr_sendColors|].
    intros _. apply keeps_ddr_endFrame. }
  exact (Hk s1 () s' Hrest).
Qed.

End LowLevelEffects.

Section LowLevelProtocol.

Variables dataPin clockPin : Z.

Local Abbreviation pulses := (flat_map (byte_pulses dataPin clockPin)).
Local Abbreviation stream := (stream dataPin clockPin).

(** X5.  [write] makes the same GPIO calls, and leaves the same lines, as
    the low-level sequence [startFrame], [sendColor] for each element of the
    array with the brightness of the call, [endFrame(count)]; the low-level
    sequence reads no memory. *)
Theorem write_as_low_level colors count brightness cs s :
  array_at (heap s) colors (Z.to_nat count) = Some cs →
  0 ≤ count ≤ 65535 →
  ∃ s1 s2,
    write dataPin clockPin colors count brightness s = Some ((), s1) ∧
    low_level_frame dataPin clockPin ((λ c, (c, brightness)) <$> cs) count s =
      Some ((), s2) ∧
    emitted s s1 = emitted s s2 ∧
    port s1 = port s2 ∧ ddr s1 = ddr s2 ∧ heap s1 = heap s2 ∧
    loads s2 = loads s.
Proof.
  intros Harr Hc.
  destruct (does_write dataPin clockPin _ _ _ brightness _ Harr Hc s eq_refl)
    as (s1 & Hrun1 & Hlog1 & Hheap1 & _ & Hport1).
  destruct (does_low_level_frame dataPin clockPin (heap s)
              ((λ c, (c, brightness)) <$> cs) count Hc s eq_refl)
    as (s2 & Hrun2 & Hlog2 & Hheap2 & Hloads2 & Hport2).
  assert (Hsame : flat_map sent_led ((λ c, (c, brightness)) <$> cs) =
                  flat_map (sent_word brightness) cs).
  { rewrite flat_map_fmap. reflexivity. }
  rewrite Hsame in Hlog2, Hport2.
  exists s1, s2. split_and!.
  - exact Hrun1.
  - exact Hrun2.
  - rewrite (emitted_app _ _ _ Hlog1), (emitted_app _ _ _ Hlog2). reflexivity.
  - rewrite Hport1, Hport2. reflexivity.
  - rewrite (ddr_write _ _ _ _ _ _ _ Hrun1).
    rewrite (ddr_low_level_frame _ _ _ _ _ _ Hrun2). reflexivity.
  - rewrite Hheap1, Hheap2. reflexivity.
  - rewrite Hloads2. apply app_nil_r.
Qed.

Hypothesis pins_distinct : dataPin ≠ clockPin.

(** X4.  Through the low-level interface every LED has a brightness of its
    own: after [startFrame], one [sendColor] per LED and [endFrame(count)]
    the strip has received the start frame, the word of each LED with its
    brightness, in the order sent, and the end frame for [count], whether or
    not [count] is the number of LEDs sent; no memory is read or written. *)
Theorem low_level_frame_stream leds count s :
  Forall led_ok leds →
  0 ≤ count ≤ 65535 →
  ∃ s',
    low_level_frame dataPin clockPin leds count s = Some ((), s') ∧
    stream s s' =
      [0x00; 0x00; 0x00; 0x00] ++ flat_map spec_led leds ++ spec_end_frame count ∧
    heap s' = heap s ∧ loads s' = loads s.
Proof.
  intros Hleds Hc.
  destruct (does_low_level_frame dataPin clockPin (heap s) leds count Hc s eq_refl)
    as (s' & Hrun & Hlog & Hheap & Hloads & _).
  exists s'. split_and!.
  - exact Hrun.
  - rewrite <- (sent_leds_spec leds Hleds).
    apply stream_frame; [exact pins_distinct| |exact Hlog].
    apply Forall_app. split; [repeat constructor; unfold is_u8; lia|].
    apply Forall_app. split; [by apply sent_leds_u8|apply sent_end_u8].
  - exact Hheap.
  - rewrite Hloads. apply app_nil_r.
Qed.

(** X6.  In the stream of [write] the four bytes after the last LED word
    are [FF 00 00 00], the word of a black LED: a strip longer than [count]
    shows black on the LED after the last one written, as the comment in
    [endFrame] says. *)
Theorem write_next_led_black colors count brightness cs s :
  array_at (heap s) colors (Z.to_nat count) = Some cs →
  Forall rgb_ok cs →
  0 ≤ count ≤ 65535 →
  is_u8 brightness →
  ∃ s',
    write dataPin clockPin colors count brightness s = Some ((), s') ∧
    word_at (stream s s') (Z.to_nat count) = [0xFF; 0x00; 0x00; 0x00] ∧
    word_at (stream s s') (Z.to_nat count) = spec_led_word 31 (RGB 0 0 0).
Proof.
  intros Harr Hcs Hc Hb.
  destruct (write_run dataPin clockPin pins_distinct
              colors count brightness cs s) as (s' & Hrun & _ & Hst & _);
    [exact Harr|exact Hcs|exact Hc|exact Hb|].
  pose proof (array_at_length _ _ _ _ Harr) as Hlen.
  assert (0 ≤ count / 16) by (apply Z.div_pos; lia).
  assert (Hword : word_at (stream s s') (Z.to_nat count) = [0xFF; 0x00; 0x00; 0x00]).
  { rewrite Hst. unfold word_at. rewrite <- Hlen, drop_words_frame.
    unfold spec_end_frame.
    replace (Z.to_nat (5 + count / 16))
      with (S (S (S (Z.to_nat (2 + count / 16))))) by lia.
    reflexivity. }
  exists s'. split_and!; [exact Hrun|exact Hword|].
  rewrite Hword. reflexivity.
Qed.

(** X7.  During [write] the strip samples eight bits for every byte of
    the stream and no bit more: the frame ends on a byte boundary. *)
Theorem write_whole_bytes colors count brightness cs s :
  array_at (heap s) colors (Z.to_nat count) = Some cs →
  Forall rgb_ok cs →
  0 ≤ count ≤ 65535 →
  ∃ s',
    write dataPin clockPin colors count brightness s = Some ((), s') ∧
    length (wire_bits dataPin clockPin (port s clockPin) (port s dataPin)
              (emitted s s')) = (8 * length (stream s s'))%nat ∧
    Z.of_nat (length (stream s s')) = 4 + 4 * count + 6 + count / 16.
Proof.
  intros Harr Hcs Hc.
  destruct (does_write dataPin clockPin _ _ _ brightness _ Harr Hc s eq_refl)
    as (s' & Hrun & Hlog & _).
  pose proof (array_at_length _ _ _ _ Harr) as Hlen.
  assert (Hst : stream s s' = sent_frame brightness cs count).
  { apply stream_frame; [exact pins_distinct| |exact Hlog].
    apply sent_frame_u8, Hcs. }
  exists s'. split_and!.
  - exact Hrun.
  - rewrite Hst, (emitted_app _ _ _ Hlog).
    rewrite (wire_bits_init dataPin clockPin pins_distinct).
    rewrite (wire_bits_bytes dataPin clockPin pins_distinct).
    apply length_bits_of_bytes.
  - rewrite Hst. unfold sent_frame, sent_end.
    assert (0 ≤ count / 16) by (apply Z.div_pos; lia).
    rewrite !length_app. cbn [length]. rewrite length_replicate.
    assert (Hwords : length (flat_map (sent_word brightness) cs) = (4 * length cs)%nat).
    { clear. induction cs as [|c cs IH]; [done|]. cbn [flat_map].
      rewrite length_app, IH. cbn. lia. }
    rewrite Hwords. lia.
Qed.

(** X8.  A byte sent by [transfer] with the clock low at entry is the
    byte that the strip receives: sampling on rising edges and grouping
    eight bits, most significant first, inverts [transfer]. *)
Theorem transfer_round_trip b s :
  is_u8 b →
  port s clockPin = false →
  ∃ s',
    transfer dataPin clockPin b s = Some ((), s') ∧
    stream s s' = [b].
Proof.
  intros Hb Hclk.
  destruct (does_transfer dataPin clockPin (heap s) b s eq_refl)
    as (s' & Hrun & Hlog & _).
  exists s'. split; [exact Hrun|].
  apply stream_bytes; [exact pins_distinct|exact Hclk| |].
  - constructor; [exact Hb|constructor].
  - cbn [flat_map]. rewrite app_nil_r. exact Hlog.
Qed.

(** X13.  Entered with the clock high, [transfer] makes the same calls but
    its first clock write is no rising edge: the strip misses bit 7 and
    samples only the seven bits that follow.  This is why [init] drives the
    clock low before the first byte. *)
Theorem transfer_clock_high_loses_bit b s :
  port s clockPin = true →
  ∃ s',
    transfer dataPin clockPin b s = Some ((), s') ∧
    wire_bits dataPin clockPin (port s clockPin) (port s dataPin) (emitted s s') =
      Z.testbit b <$> [6; 5; 4; 3; 2; 1; 0].
Proof.
  intros Hclk.
  destruct (does_transfer dataPin clockPin (heap s) b s eq_refl)
    as (s' & Hrun & Hlog & _).
  exists s'. split; [exact Hrun|].
  rewrite (emitted_app _ _ _ Hlog), Hclk.
  unfold byte_pulses. cbn [flat_map].
  unfold bit_pulse at 1. cbn [app].
  rewrite (wire_bits_data dataPin clockPin pins_distinct).
  rewrite !(wire_bits_clock dataPin clockPin). cbn [andb negb app].
  rewrite !(wire_bits_bit_pulse dataPin clockPin pins_distinct).
  reflexivity.
Qed.

End LowLevelProtocol.

(** ** The length of the end frame *)

Section EndFrameSteps.

Variables dataPin clockPin : Z.

Local Abbreviation pulses := (flat_map (byte_pulses dataPin clockPin)).

(** X9.  For every [count] of the type, up to 65535, the end frame has
    [6 + count/16] bytes, between 6 and 4101; and it grows by one zero byte
    for every 16 LEDs more: when [count + 16] is still a [uint16_t],
    [endFrame(count + 16)] makes the GPIO calls of [endFrame(count)] and
    then those of one more zero byte. *)
Theorem endFrame_grows_every_16 count s :
  0 ≤ count ≤ 65535 →
  ∃ s1 bs,
    endFrame dataPin clockPin count s = Some ((), s1) ∧
    emitted s s1 = pulses bs ∧
    Z.of_nat (length bs) = 6 + count / 16 ∧
    6 ≤ Z.of_nat (length bs) ≤ 4101 ∧
    (count + 16 ≤ 65535 →
     ∃ s2,
       endFrame dataPin clockPin (count + 16) s = Some ((), s2) ∧
       emitted s s2 = pulses (bs ++ [0x00])).
Proof.
  intros Hc.
  destruct (does_endFrame dataPin clockPin (heap s) count) with (s := s)
    as (s1 & Hrun1 & Hlog1 & _); [lia|reflexivity|].
  pose proof (end_bound count Hc) as Hb.
  assert (count / 16 < 4096) by (apply Z.div_lt_upper_bound; lia).
  assert (Hlen : Z.of_nat (length (sent_end count)) = 6 + count / 16).
  { unfold sent_end. cbn [length]. rewrite length_replicate. lia. }
  exists s1, (sent_end count). rewrite Hlen. split_and!.
  - exact Hrun1.
  - apply emitted_app, Hlog1.
  - reflexivity.
  - lia.
  - lia.
  - intros Hc16.
    destruct (does_endFrame dataPin clockPin (heap s) (count + 16)) with (s := s)
      as (s2 & Hrun2 & Hlog2 & _); [lia|reflexivity|].
    assert (Hdiv : (count + 16) / 16 = count / 16 + 1).
    { replace (count + 16) with (count + 1 * 16) by lia.
      rewrite Z.div_add by lia. reflexivity. }
    exists s2. split; [exact Hrun2|].
    rewrite (emitted_app _ _ _ Hlog2). f_equal.
    unfold sent_end. rewrite Hdiv.
    replace (Z.to_nat (5 + (count / 16 + 1)))
      with (S (Z.to_nat (5 + count / 16))) by lia.
    rewrite replicate_S_end. reflexivity.
Qed.

End EndFrameSteps.

(** ** The Brightness example *)

Lemma brightness_pins : Brightness.dataPin ≠ Brightness.clockPin.
Proof. discriminate. Qed.

(** The loop of [sendWhite] stops at the least brightness [t] whose full
    white is not below [value]. *)
Lemma sendWhite_loop_reaches INT_MAX value t :
  32767 ≤ INT_MAX → 1 ≤ t ≤ 128 →
  t = 1 ∨ (t - 1) * 255 < value → value ≤ t * 255 →
  ∀ fuel b s, 1 ≤ b ≤ t → (Z.to_nat (t - b) < fuel)%nat →
    Brightness.sendWhite_loop INT_MAX fuel b value s = Some (t, s).
Proof.
  intros Hint Ht Hlow Hhigh fuel.
  induction fuel as [|fuel IH]; intros b s Hb Hfuel; [lia|].
  cbn [Brightness.sendWhite_loop].
  destruct (Z.ltb_spec INT_MAX (b * 255)) as [Hov|_]; [lia|].
  destruct (Z.ltb_spec (b * 255) value) as [Hlt|Hge].
  - assert (b < t) by lia.
    replace (u8 (b + 1)) with (b + 1) by (unfold u8; rewrite Z.mod_small; lia).
    apply IH; lia.
  - assert (b = t) as -> by lia. reflexivity.
Qed.

(** The loop never stops when no brightness is enough, on a board whose
    [int] holds every product. *)
Lemma sendWhite_loop_diverges INT_MAX value :
  65025 ≤ INT_MAX → 65025 < value →
  ∀ fuel b s, is_u8 b → Brightness.sendWhite_loop INT_MAX fuel b value s = None.
Proof.
  intros Hint Hv fuel.
  induction fuel as [|fuel IH]; intros b s Hb; [reflexivity|].
  unfold is_u8 in Hb. cbn [Brightness.sendWhite_loop].
  destruct (Z.ltb_spec INT_MAX (b * 255)) as [Hov|_]; [lia|].
  destruct (Z.ltb_spec (b * 255) value) as [_|Hge]; [|lia].
  apply IH, u8_range.
Qed.

Lemma sendWhite_after_loop INT_MAX value b s s1 :
  Brightness.sendWhite_loop INT_MAX Brightness.u8_fuel 1 value s = Some (b, s1) →
  1 ≤ b → 0 ≤ value → value + b / 2 < 65536 →
  Brightness.sendWhite INT_MAX value s =
  sendColor Brightness.dataPin Brightness.clockPin
            (u8 ((value + b / 2) / b)) (u8 ((value + b / 2) / b))
            (u8 ((value + b / 2) / b)) b s1.
Proof.
  intros Hloop Hb Hv Hsum. unfold Brightness.sendWhite, io_bind.
  rewrite Hloop. cbv zeta.
  assert (0 ≤ b / 2) by (apply Z.div_pos; lia).
  replace (u16 (value + b / 2)) with (value + b / 2)
    by (unfold u16; rewrite Z.mod_small; lia).
  destruct (Z.eqb_spec b 0) as [->|_]; [lia|].
  destruct (INT_MAX <? 65535); reflexivity.
Qed.

(** The arithmetic of [sendWhite]: the brightness and the channel value. *)
Lemma sendWhite_numbers value :
  0 ≤ value ≤ 32640 →
  let b := Z.max 1 ((value + 254) / 255) in
  let b2 := (value + b / 2) / b in
  1 ≤ b ≤ 128 ∧ value ≤ b * 255 ∧ (b = 1 ∨ (b - 1) * 255 < value) ∧
  0 ≤ b2 ≤ 255 ∧ value - b / 2 ≤ b * b2 ≤ value + b / 2 ∧
  (value ≤ 255 * 31 → b ≤ 31) ∧ (255 * 31 < value → 32 ≤ b).
Proof.
  intros Hv b b2.
  pose proof (Z.div_mod (value + 254) 255 ltac:(lia)) as Hq.
  pose proof (Z.mod_pos_bound (value + 254) 255 ltac:(lia)) as Hr.
  assert (Hb : 1 ≤ b ≤ 128 ∧ value ≤ b * 255 ∧ (b = 1 ∨ (b - 1) * 255 < value) ∧
               (value ≤ 255 * 31 → b ≤ 31) ∧ (255 * 31 < value → 32 ≤ b)).
  { subst b. lia. }
  destruct Hb as (Hb1 & Hb2 & Hb3 & Hb4 & Hb5).
  pose proof (Z.div_mod b 2 ltac:(lia)) as Hh.
  pose proof (Z.mod_pos_bound b 2 ltac:(lia)) as Hhr.
  pose proof (Z.div_mod (value + b / 2) b ltac:(lia)) as Hq2.
  pose proof (Z.mod_pos_bound (value + b / 2) b ltac:(lia)) as Hr2.
  fold b2 in Hq2.
  split_and!; try assumption; try lia; nia.
Qed.

Lemma sendWhite_run INT_MAX value s :
  32767 ≤ INT_MAX → 0 ≤ value ≤ 32640 →
  port s Brightness.clockPin = false →
  ∃ s' b b2,
    Brightness.sendWhite INT_MAX value s = Some ((), s') ∧
    stream Brightness.dataPin Brightness.clockPin s s' =
      [0xE0 + b `mod` 32; b2; b2; b2] ∧
    1 ≤ b ≤ 128 ∧ value ≤ b * 255 ∧ (b = 1 ∨ (b - 1) * 255 < value) ∧
    0 ≤ b2 ≤ 255 ∧ value - b / 2 ≤ b * b2 ≤ value + b / 2 ∧
    (value ≤ 255 * 31 → b ≤ 31) ∧ (255 * 31 < value → 32 ≤ b).
Proof.
  intros Hint Hv Hclk.
  pose proof (sendWhite_numbers value Hv) as Hnum. cbv zeta in Hnum.
  set (b := Z.max 1 ((value + 254) / 255)) in *.
  set (b2 := (value + b / 2) / b) in *.
  destruct Hnum as (Hb & Hhigh & Hlow & Hb2 & Hnear & Hin & Hout).
  assert (Hloop : Brightness.sendWhite_loop INT_MAX Brightness.u8_fuel 1 value s =
                  Some (b, s)).
  { apply (sendWhite_loop_reaches INT_MAX value b); try assumption; try lia.
    unfold Brightness.u8_fuel. lia. }
  assert (Hhalf : 0 ≤ b / 2 ≤ 64).
  { split; [apply Z.div_pos; lia|]. apply Z.div_le_upper_bound; lia. }
  pose proof (sendWhite_after_loop INT_MAX value b s s Hloop
                ltac:(lia) ltac:(lia) ltac:(lia)) as Hsend.
  fold b2 in Hsend.
  replace (u8 b2) with b2 in Hsend by (unfold u8; rewrite Z.mod_small; lia).
  destruct (does_sendColor Brightness.dataPin Brightness.clockPin (heap s)
              b2 b2 b2 b s eq_refl) as (s' & Hrun & Hlog & _).
  destruct (header_byte b) as (Hhdr & _ & Hmod); [unfold is_u8; lia|].
  change (Z.shiftl 0x7 5) with 0xE0 in Hhdr.
  assert (Hhdr' : u8 (Z.lor 0xE0 b) = 0xE0 + b `mod` 32)
    by (rewrite Hhdr; exact Hmod).
  exists s', b, b2. split_and!; try assumption; try lia.
  - rewrite Hsend. exact Hrun.
  - rewrite <- Hhdr'.
    apply stream_bytes; [exact brightness_pins|exact Hclk| |exact Hlog].
    repeat (constructor; [apply u8_range || (unfold is_u8; lia)|]). constructor.
Qed.

(** X10.  For every [value] up to [maxValue = 255 * 31], on any board,
    [sendWhite] returns and sends one LED word of white: the brightness [b]
    is the least from 1 to 31 with [value <= 255 * b], so it is never
    masked, and the three channels carry [value / b] rounded to nearest, at
    most 255, so that [b * b2] is within [b / 2] of [value]. *)
Theorem sendWhite_in_range INT_MAX value s :
  32767 ≤ INT_MAX →
  0 ≤ value ≤ Brightness.maxValue →
  port s Brightness.clockPin = false →
  ∃ s' b b2,
    Brightness.sendWhite INT_MAX value s = Some ((), s') ∧
    stream Brightness.dataPin Brightness.clockPin s s' = [0xE0 + b; b2; b2; b2] ∧
    1 ≤ b ≤ 31 ∧ value ≤ 255 * b ∧ (b = 1 ∨ 255 * (b - 1) < value) ∧
    0 ≤ b2 ≤ 255 ∧ value - b / 2 ≤ b * b2 ≤ value + b / 2.
Proof.
  unfold Brightness.maxValue. intros Hint Hv Hclk.
  destruct (sendWhite_run INT_MAX value s)
    as (s' & b & b2 & Hrun & Hst & Hb & Hhigh & Hlow & Hb2 & Hnear & Hin & _);
    [exact Hint|lia|exact Hclk|].
  assert (Hb31 : b ≤ 31) by (apply Hin; lia).
  rewrite (Z.mod_small b 32) in Hst by lia.
  exists s', b, b2. split_and!; try assumption; lia.
Qed.

(** X11.  Above [maxValue], up to [128 * 255], [sendWhite] still returns,
    but the brightness [b] it computes is 32 or more and the strip receives
    [b mod 32]: the five-bit field wraps. *)
Theorem sendWhite_above_maxValue INT_MAX value s :
  32767 ≤ INT_MAX →
  Brightness.maxValue < value ≤ 128 * 255 →
  port s Brightness.clockPin = false →
  ∃ s' b b2,
    Brightness.sendWhite INT_MAX value s = Some ((), s') ∧
    stream Brightness.dataPin Brightness.clockPin s s' =
      [0xE0 + b `mod` 32; b2; b2; b2] ∧
    32 ≤ b ≤ 128 ∧ value ≤ 255 * b ∧ 255 * (b - 1) < value ∧
    b `mod` 32 < b.
Proof.
  unfold Brightness.maxValue. intros Hint Hv Hclk.
  destruct (sendWhite_run INT_MAX value s)
    as (s' & b & b2 & Hrun & Hst & Hb & Hhigh & Hlow & _ & _ & _ & Hout);
    [exact Hint|lia|exact Hclk|].
  assert (Hb32 : 32 ≤ b) by (apply Hout; lia).
  pose proof (Z.mod_pos_bound b 32 ltac:(lia)).
  exists s', b, b2. split_and!; try assumption; lia.
Qed.

(** X12.  On a board whose [int] has 32 bits, [sendWhite] does not return
    for a [value] above [255 * 255]: no 8-bit brightness ends its loop,
    whatever the number of rounds. *)
Theorem sendWhite_never_returns INT_MAX value s :
  65535 ≤ INT_MAX →
  255 * 255 < value ≤ 65535 →
  (∀ fuel, Brightness.sendWhite_loop INT_MAX fuel 1 value s = None) ∧
  Brightness.sendWhite INT_MAX value s = None.
Proof.
  intros Hint Hv.
  assert (Hloop : ∀ fuel, Brightness.sendWhite_loop INT_MAX fuel 1 value s = None).
  { intros fuel. apply sendWhite_loop_diverges; [lia|lia|unfold is_u8; lia]. }
  split; [exact Hloop|].
  unfold Brightness.sendWhite, io_bind. rewrite Hloop. reflexivity.
Qed.

(** * The rest of the driver on a concrete board *)

Example endFrame_lines_low_witness :
  ∃ s', endFrame 11 12 72 (demo_board true) = Some ((), s') ∧
        port s' 11 = false ∧ port s' 12 = false ∧ port s' 13 = true.
Proof.
  destruct (endFrame_lines_low 11 12 72 (demo_board true))
    as (s' & Hrun & Hdat & Hclk & _ & Hother & _); [lia|].
  exists s'. split_and!; [exact Hrun|exact Hdat|exact Hclk|].
  rewrite (Hother 13); [reflexivity|discriminate|discriminate].
Defined.

Example write_lines_idle_witness :
  ∃ s', write 11 12 100 2 31 (demo_board true) = Some ((), s') ∧
        port s' 11 = false ∧ port s' 12 = false ∧
        ddr s' 11 = OUTPUT ∧ ddr s' 12 = OUTPUT.
Proof.
  destruct (write_lines_idle 11 12 100 2 31
              [RGB 1 2 3; RGB 255 0 7] (demo_board true))
    as (s' & Hrun & Hdat & Hclk & Hdd & Hdc & _).
  - reflexivity.
  - lia.
  - exists s'. split_and!; assumption.
Defined.

Example low_level_frame_stream_witness :
  ∃ s', low_level_frame 11 12 [(RGB 1 2 3, 5); (RGB 4 5 6, 31)] 2 (demo_board true) =
          Some ((), s') ∧
        stream 11 12 (demo_board true) s' =
          [0; 0; 0; 0; 0xE5; 3; 2; 1; 0xFF; 6; 5; 4; 0xFF; 0; 0; 0; 0; 0].
Proof.
  destruct (low_level_frame_stream 11 12 pins_11_12
              [(RGB 1 2 3, 5); (RGB 4 5 6, 31)] 2 (demo_board true))
    as (s' & Hrun & Hst & _).
  - repeat (apply List.Forall_cons || apply List.Forall_nil);
      unfold led_ok, rgb_ok, is_u8; cbn; lia.
  - lia.
  - exists s'. split; [exact Hrun|exact Hst].
Defined.

Example write_as_low_level_witness :
  ∃ s1 s2, write 11 12 100 2 31 (demo_board true) = Some ((), s1) ∧
           low_level_frame 11 12 [(RGB 1 2 3, 31); (RGB 255 0 7, 31)] 2
             (demo_board true) = Some ((), s2) ∧
           emitted (demo_board true) s1 = emitted (demo_board true) s2.
Proof.
  destruct (write_as_low_level 11 12 100 2 31
              [RGB 1 2 3; RGB 255 0 7] (demo_board true))
    as (s1 & s2 & Hrun1 & Hrun2 & Hem & _).
  - reflexivity.
  - lia.
  - exists s1, s2. split_and!; [exact Hrun1|exact Hrun2|exact Hem].
Defined.

Example write_next_led_black_witness :
  ∃ s', write 11 12 100 2 31 (demo_board true) = Some ((), s') ∧
        word_at (stream 11 12 (demo_board true) s') 2 = [255; 0; 0; 0].
Proof.
  destruct (write_next_led_black 11 12 pins_11_12 100 2 31
              [RGB 1 2 3; RGB 255 0 7] (demo_board true))
    as (s' & Hrun & Hword & _).
  - reflexivity.
  - u8_solve.
  - lia.
  - u8_solve.
  - exists s'. split; [exact Hrun|exact Hword].
Defined.

Example write_whole_bytes_witness :
  ∃ s', write 11 12 100 2 31 (demo_board true) = Some ((), s') ∧
        length (wire_bits 11 12 true true (emitted (demo_board true) s')) =
          (8 * length (stream 11 12 (demo_board true) s'))%nat.
Proof.
  destruct (write_whole_bytes 11 12 pins_11_12 100 2 31
              [RGB 1 2 3; RGB 255 0 7] (demo_board true))
    as (s' & Hrun & Hbits & _).
  - reflexivity.
  - u8_solve.
  - lia.
  - exists s'. split; [exact Hrun|exact Hbits].
Defined.

Example transfer_round_trip_witness :
  ∃ s', transfer 11 12 0xA5 (demo_board false) = Some ((), s') ∧
        stream 11 12 (demo_board false) s' = [0xA5].
Proof.
  apply (transfer_round_trip 11 12 pins_11_12 0xA5 (demo_board false)).
  - u8_solve.
  - reflexivity.
Defined.

Example endFrame_grows_every_16_witness :
  (∃ s1 bs, endFrame 11 12 65535 (demo_board false) = Some ((), s1) ∧
            emitted (demo_board false) s1 = flat_map (byte_pulses 11 12) bs ∧
            Z.of_nat (length bs) = 4101) ∧
  (∃ s1 s2 bs, endFrame 11 12 15 (demo_board false) = Some ((), s1) ∧
               endFrame 11 12 31 (demo_board false) = Some ((), s2) ∧
               emitted (demo_board false) s1 = flat_map (byte_pulses 11 12) bs ∧
               Z.of_nat (length bs) = 6 ∧
               emitted (demo_board false) s2 =
                 flat_map (byte_pulses 11 12) (bs ++ [0])).
Proof.
  split.
  - destruct (endFrame_grows_every_16 11 12 65535 (demo_board false))
      as (s1 & bs & Hrun1 & Hem1 & Hlen & _); [lia|].
    exists s1, bs. split_and!; [exact Hrun1|exact Hem1|exact Hlen].
  - destruct (endFrame_grows_every_16 11 12 15 (demo_board false))
      as (s1 & bs & Hrun1 & Hem1 & Hlen & _ & Hgrow); [lia|].
    destruct Hgrow as (s2 & Hrun2 & Hem2); [lia|].
    exists s1, s2, bs.
    split_and!; [exact Hrun1|exact Hrun2|exact Hem1|exact Hlen|exact Hem2].
Defined.

Example sendWhite_in_range_witness :
  ∃ s' b b2, Brightness.sendWhite 32767 Brightness.maxValue (demo_board false) =
               Some ((), s') ∧
             stream 11 12 (demo_board false) s' = [0xE0 + b; b2; b2; b2] ∧
             1 ≤ b ≤ 31 ∧ 0 ≤ b2 ≤ 255.
Proof.
  destruct (sendWhite_in_range 32767 Brightness.maxValue (demo_board false))
    as (s' & b & b2 & Hrun & Hst & Hb & _ & _ & Hb2 & _).
  - lia.
  - unfold Brightness.maxValue. lia.
  - reflexivity.
  - exists s', b, b2. split_and!; [exact Hrun|exact Hst|lia|lia|lia|lia].
Defined.

Example sendWhite_above_maxValue_witness :
  ∃ s' b b2, Brightness.sendWhite 32767 8000 (demo_board false) = Some ((), s') ∧
             stream 11 12 (demo_board false) s' = [0xE0 + b `mod` 32; b2; b2; b2] ∧
             32 ≤ b ≤ 128.
Proof.
  destruct (sendWhite_above_maxValue 32767 8000 (demo_board false))
    as (s' & b & b2 & Hrun & Hst & Hb & _).
  - lia.
  - unfold Brightness.maxValue. lia.
  - reflexivity.
  - exists s', b, b2. split_and!; [exact Hrun|exact Hst|lia|lia].
Defined.

Example sendWhite_never_returns_witness :
  Brightness.sendWhite 2147483647 65535 (demo_board false) = None.
Proof.
  apply (sendWhite_never_returns 2147483647 65535 (demo_board false)); lia.
Defined.

(** The example's two ends: the dimmest and the brightest white. *)
Example sendWhite_dimmest :
  received 11 12 (Brightness.sendWhite 32767 Brightness.minValue) (demo_board false) =
  Some [0xE1; 1; 1; 1].
Proof. vm_compute. reflexivity. Qed.

Example sendWhite_brightest :
  received 11 12 (Brightness.sendWhite 32767 Brightness.maxValue) (demo_board false) =
  Some [0xFF; 255; 255; 255].
Proof. vm_compute. reflexivity. Qed.

Example transfer_clock_high_loses_bit_witness :
  ∃ s', transfer 11 12 0xA5 (demo_board true) = Some ((), s') ∧
        wire_bits 11 12 true true (emitted (demo_board true) s') =
          [false; true; false; false; true; false; true].
Proof.
  apply (transfer_clock_high_loses_bit 11 12 pins_11_12 0xA5 (demo_board true)).
  reflexivity.
Defined.
